(** * hdmx - Horizontal Device Metrics: a model of [src/hdmx.cc]

    The table sanitiser [OpenTypeHDMX] of hdmx.cc is embedded as Rocq
    functions over explicit state: the object [this] is a record that every
    method receives and returns, the fonts point into a store of table
    instances, and the three outcomes of a parse (success, drop, error) are
    a tagged value.  *)

From Stdlib Require Import ZArith Lia List.
From Stdlib Require Import Init.Byte Strings.Byte.
From stdpp Require Import base option list gmap.

Local Open Scope Z_scope.

(** ** Machine integers and bytes *)

Module Int.

Definition wrap_s16 (z : Z) : Z := (z + 32768) mod 65536 - 32768.
Definition wrap_s32 (z : Z) : Z := (z + 2147483648) mod 4294967296 - 2147483648.

(** A [uint8_t] is a [Byte.byte]; its numeric value is [u8]. *)
Definition u8 (b : byte) : Z := Z.of_N (Byte.to_N b).

Definition byte_of_Z (z : Z) : byte :=
    match Byte.of_N (Z.to_N (z mod 256)) with
    | Some b => b
    | None => x00
    end.

(** Big-endian decoding of the fixed-width fields. *)
Definition be_u16 (b0 b1 : byte) : Z := 256 * u8 b0 + u8 b1.
Definition be_s16 (b0 b1 : byte) : Z := wrap_s16 (be_u16 b0 b1).
Definition be_u32 (b0 b1 b2 b3 : byte) : Z :=
    16777216 * u8 b0 + 65536 * u8 b1 + 256 * u8 b2 + u8 b3.
Definition be_s32 (b0 b1 b2 b3 : byte) : Z := wrap_s32 (be_u32 b0 b1 b2 b3).

(** Big-endian encoding. *)
Definition bytes_u16 (v : Z) : list byte :=
    [byte_of_Z (v / 256); byte_of_Z v].
Definition bytes_s16 (v : Z) : list byte := bytes_u16 (v mod 65536).
Definition bytes_u32 (v : Z) : list byte :=
    [byte_of_Z (v / 16777216); byte_of_Z (v / 65536); byte_of_Z (v / 256);
     byte_of_Z v].
Definition bytes_s32 (v : Z) : list byte := bytes_u32 (v mod 4294967296).

End Int.
Export Int.

(** ** Bounded reader *)

(** Modelled from the spec: the class [Buffer] that [Parse] reads through is
    declared outside hdmx.cc.  Section 4.1: a cursor over an immutable byte
    region, starting at 0; each typed read consumes its fixed width at the
    cursor and decodes big-endian, or fails leaving the cursor unchanged when
    too few bytes remain; [Skip n] advances by [n] only if [n] bytes remain. *)
Module Buffer.

Record t := mk { buffer : list byte; offset : nat }.

Definition new (data : list byte) : t := {| buffer := data; offset := 0 |}.

(** The bytes from the cursor to the end of the region. *)
Definition remaining (b : t) : list byte := drop (offset b) (buffer b).

Definition advance (n : nat) (b : t) : t :=
    {| buffer := buffer b; offset := (offset b + n)%nat |}.

Definition ReadU8 (b : t) : option (byte * t) :=
    match remaining b with
    | x :: _ => Some (x, advance 1 b)
    | _ => None
    end.

Definition ReadU16 (b : t) : option (Z * t) :=
    match remaining b with
    | x0 :: x1 :: _ => Some (be_u16 x0 x1, advance 2 b)
    | _ => None
    end.

Definition ReadS16 (b : t) : option (Z * t) :=
    match remaining b with
    | x0 :: x1 :: _ => Some (be_s16 x0 x1, advance 2 b)
    | _ => None
    end.

Definition ReadS32 (b : t) : option (Z * t) :=
    match remaining b with
    | x0 :: x1 :: x2 :: x3 :: _ => Some (be_s32 x0 x1 x2 x3, advance 4 b)
    | _ => None
    end.

Definition Skip (n_bytes : Z) (b : t) : option t :=
    if (0 <=? n_bytes) && (n_bytes <=? Z.of_nat (length (remaining b)))
    then Some (advance (Z.to_nat n_bytes) b)
    else None.

End Buffer.

(** ** Bounded writer *)

(** Modelled from the spec: the class [OTSStream] that [Serialize] writes to
    is declared outside hdmx.cc.  Section 4.2: append-only; the typed writes
    encode big-endian and append, [Write] appends a raw run; any write may
    fail, and what was written before stays.  The sink's own policy is the
    field [accepts]: given what is already written and the run to append, it
    says whether the write goes through. *)
Module OTSStream.

Record t := mk {
    written : list byte;
    accepts : list byte -> list byte -> bool
  }.

Definition Write (bs : list byte) (out : t) : option t :=
    if accepts out (written out) bs
    then Some {| written := written out ++ bs; accepts := accepts out |}
    else None.

Definition WriteU16 (v : Z) (out : t) : option t := Write (bytes_u16 v) out.
Definition WriteS16 (v : Z) (out : t) : option t := Write (bytes_s16 v) out.
Definition WriteS32 (v : Z) (out : t) : option t := Write (bytes_s32 v) out.

(** A sink without limits. *)
Definition unbounded : t := {| written := []; accepts := fun _ _ => true |}.

End OTSStream.

(** ** Data model *)

Record OpenTypeHDMXDeviceRecord := mkDeviceRecord {
  pixel_size : byte;
  max_width : byte;
  widths : list byte
}.

(** The fields of [OpenTypeHDMX] as hdmx.cc uses them: [version] is read with
    [ReadU16] (a [uint16_t]), [size_device_record] with [ReadS32] (an
    [int32_t]); [pad_len] receives the difference of two [int32_t] values and
    is printed with [%d], and is taken as an [int32_t] too.  [parsed_ok]
    stands for the state of the base class [Table], see
    [Table_ShouldSerialize] below. *)
Record OpenTypeHDMX := mkHDMX {
  parsed_ok : bool;
  version : Z;
  size_device_record : Z;
  pad_len : Z;
  records : list OpenTypeHDMXDeviceRecord
}.

Definition set_parsed_ok (b : bool) (this : OpenTypeHDMX) : OpenTypeHDMX :=
  mkHDMX b (version this) (size_device_record this) (pad_len this) (records this).
Definition set_version (v : Z) (this : OpenTypeHDMX) : OpenTypeHDMX :=
  mkHDMX (parsed_ok this) v (size_device_record this) (pad_len this) (records this).
Definition set_size_device_record (s : Z) (this : OpenTypeHDMX) : OpenTypeHDMX :=
  mkHDMX (parsed_ok this) (version this) s (pad_len this) (records this).
Definition set_pad_len (p : Z) (this : OpenTypeHDMX) : OpenTypeHDMX :=
  mkHDMX (parsed_ok this) (version this) (size_device_record this) p (records this).
Definition records_push_back (rec : OpenTypeHDMXDeviceRecord)
    (this : OpenTypeHDMX) : OpenTypeHDMX :=
  mkHDMX (parsed_ok this) (version this) (size_device_record this) (pad_len this)
         (records this ++ [rec]).

(** The prerequisite tables, with the one field of each that hdmx.cc reads. *)
Record OpenTypeHEAD := mkHEAD { flags : Z }.
Record OpenTypeMAXP := mkMAXP { num_glyphs : Z }.

(** Table instances live in a store; a font holds pointers ([positive]) into
    it, [None] for the null pointer. *)
Record Font := mkFont {
  head : option OpenTypeHEAD;
  maxp : option OpenTypeMAXP;
  glyf : option positive;
  hdmx : option positive;
  hdmx_reused : bool
}.

Definition set_hdmx (p : option positive) (font : Font) : Font :=
  mkFont (head font) (maxp font) (glyf font) p (hdmx_reused font).
Definition set_hdmx_reused (b : bool) (font : Font) : Font :=
  mkFont (head font) (maxp font) (glyf font) (hdmx font) b.

(** ** Outcomes *)

Inductive Outcome := Success | Drop | Error.

#[global] Instance Outcome_eq_dec : EqDecision Outcome.
Proof. solve_decision. Defined.

(** Modelled from the spec: the base class [Table] ([Error], [Drop],
    [ShouldSerialize]) is declared outside hdmx.cc.  Section 4.4: Drop and
    Error both make Parse fail and stay distinct as a tagged reason;
    section 4.3: the default [ShouldSerialize] is "parsed successfully". *)
Definition Table_Error (this : OpenTypeHDMX) : Outcome * OpenTypeHDMX :=
  (Error, set_parsed_ok false this).
Definition Table_Drop (this : OpenTypeHDMX) : Outcome * OpenTypeHDMX :=
  (Drop, set_parsed_ok false this).
Definition Table_Success (this : OpenTypeHDMX) : Outcome * OpenTypeHDMX :=
  (Success, set_parsed_ok true this).
Definition Table_ShouldSerialize (this : OpenTypeHDMX) : bool := parsed_ok this.

(** ** OpenTypeHDMX::Parse *)

(** The inner loop of hdmx.cc, lines 65-71: [todo] widths are still to be
    read and pushed onto [rec_widths]. *)
Fixpoint Parse_widths (todo : nat) (table : Buffer.t) (rec_widths : list byte)
    : option (list byte * Buffer.t) :=
  match todo with
  | O => Some (rec_widths, table)
  | S todo' =>
      match Buffer.ReadU8 table with
      | None => None
      | Some (width, table) => Parse_widths todo' table (rec_widths ++ [width])
      end
  end.

(** The record loop, lines 51-79: [todo] is [num_recs - i]. *)
Fixpoint Parse_records (font_num_glyphs : Z) (todo : nat) (i : Z)
    (last_pixel_size : byte) (table : Buffer.t) (this : OpenTypeHDMX)
    : Outcome * OpenTypeHDMX :=
  match todo with
  | O => Table_Success this
  | S todo' =>
      match Buffer.ReadU8 table with
      | None => Table_Error this
      | Some (rec_pixel_size, table) =>
      match Buffer.ReadU8 table with
      | None => Table_Error this
      | Some (rec_max_width, table) =>
      if negb (i =? 0) && (u8 rec_pixel_size <=? u8 last_pixel_size)
      then Table_Drop this
      else
      match Parse_widths (Z.to_nat font_num_glyphs) table [] with
      | None => Table_Error this
      | Some (rec_widths, table) =>
      match (if 0 <? pad_len this then Buffer.Skip (pad_len this) table
             else Some table) with
      | None => Table_Error this
      | Some table =>
          Parse_records font_num_glyphs todo' (i + 1) rec_pixel_size table
            (records_push_back
               (mkDeviceRecord rec_pixel_size rec_max_width rec_widths) this)
      end end end end
  end.

(** Lines 14-82.  [font] is the font [GetFont()] returns; the result is the
    outcome and [this] as the call leaves it. *)
Definition Parse (font : Font) (this : OpenTypeHDMX) (data : list byte)
    : Outcome * OpenTypeHDMX :=
  let table := Buffer.new data in
  match head font, maxp font with
  | Some font_head, Some font_maxp =>
      if Z.land (flags font_head) 0x14 =? 0 then Table_Drop this else
      match Buffer.ReadU16 table with
      | None => Table_Error this
      | Some (v, table) =>
      let this := set_version v this in
      match Buffer.ReadS16 table with
      | None => Table_Error this
      | Some (num_recs, table) =>
      match Buffer.ReadS32 table with
      | None => Table_Error this
      | Some (s, table) =>
      let this := set_size_device_record s this in
      if negb (version this =? 0) then Table_Drop this else
      if num_recs <=? 0 then Table_Drop this else
      let actual_size_device_record := num_glyphs font_maxp + 2 in
      if size_device_record this <? actual_size_device_record
      then Table_Drop this else
      let this :=
        set_pad_len (size_device_record this - actual_size_device_record) this in
      if 3 <? pad_len this then Table_Error this else
      Parse_records (num_glyphs font_maxp) (Z.to_nat num_recs) 0 x00 table this
      end end end
  | _, _ => Table_Error this
  end.

(** ** OpenTypeHDMX::ShouldSerialize and OpenTypeHDMX::Serialize *)

(** [font] is the font [GetFont()] returns. *)
Definition ShouldSerialize (font : Font) (this : OpenTypeHDMX) : bool :=
  Table_ShouldSerialize this && bool_decide (glyf font <> None).

(** The loop of lines 99-110.  [records[i]] out of range is not defined in
    the source and ends the model with failure.  The padding of line 107 is
    the first [pad_len] bytes of the literal of three zero bytes and its
    terminator, four zero bytes in all; more than four would be read past
    the literal, which the source does not define either: the model ends
    with failure there too, and nothing is stated about that case. *)
Fixpoint Serialize_records (this : OpenTypeHDMX) (todo : nat) (i : nat)
    (out : OTSStream.t) : bool * OTSStream.t :=
  match todo with
  | O => (true, out)
  | S todo' =>
      match records this !! i with
      | None => (false, out)
      | Some rec =>
      match OTSStream.Write [pixel_size rec] out with
      | None => (false, out)
      | Some out =>
      match OTSStream.Write [max_width rec] out with
      | None => (false, out)
      | Some out =>
      match OTSStream.Write (widths rec) out with
      | None => (false, out)
      | Some out =>
      match (if 0 <? pad_len this
             then if pad_len this <=? 4
                  then OTSStream.Write
                         (take (Z.to_nat (pad_len this)) [x00; x00; x00; x00]) out
                  else None
             else Some out) with
      | None => (false, out)
      | Some out => Serialize_records this todo' (S i) out
      end end end end end
  end.

(** Lines 89-113. *)
Definition Serialize (this : OpenTypeHDMX) (out : OTSStream.t)
    : bool * OTSStream.t :=
  let num_recs := wrap_s16 (Z.of_nat (length (records this))) in
  if 32767 <? Z.of_nat (length (records this)) then (false, out) else
  match OTSStream.WriteU16 (version this) out with
  | None => (false, out)
  | Some out =>
  match OTSStream.WriteS16 num_recs out with
  | None => (false, out)
  | Some out =>
  match OTSStream.WriteS32 (size_device_record this) out with
  | None => (false, out)
  | Some out => Serialize_records this (Z.to_nat num_recs) 0 out
  end end end.

(** ** The font-level entry points *)

(** The fonts and the table instances they point to.  A table instance is
    stored with the font it was constructed for, the one [GetFont()] returns. *)
Record Heap := mkHeap {
  fonts : gmap positive Font;
  tables : gmap positive (positive * OpenTypeHDMX)
}.

(** Modelled from the spec: the constructor of [OpenTypeHDMX] is declared
    outside hdmx.cc.  Section 3: "HdmxTable is constructed empty". *)
Definition OpenTypeHDMX_new : OpenTypeHDMX := mkHDMX false 0 0 0 [].

(** Lines 115-135.  A pointer that names no font or no instance is outside
    what the source defines: the model answers [None]. *)
Definition ots_hdmx_parse (font : positive) (data : list byte) (h : Heap)
    : option (Outcome * Heap) :=
  match fonts h !! font with
  | None => None
  | Some f =>
      let p := fresh (dom (tables h)) in
      let f := set_hdmx (Some p) f in
      let '(o, this) := Parse f OpenTypeHDMX_new data in
      Some (o, mkHeap (<[font := f]> (fonts h)) (<[p := (font, this)]> (tables h)))
  end.

Definition ots_hdmx_should_serialise (font : positive) (h : Heap) : option bool :=
  match fonts h !! font with
  | None => None
  | Some f =>
      match hdmx f with
      | None => Some false
      | Some p =>
          match tables h !! p with
          | None => None
          | Some (owner, this) =>
              match fonts h !! owner with
              | None => None
              | Some fo => Some (ShouldSerialize fo this)
              end
          end
      end
  end.

Definition ots_hdmx_serialise (out : OTSStream.t) (font : positive) (h : Heap)
    : option (bool * OTSStream.t) :=
  match fonts h !! font with
  | None => None
  | Some f =>
      match hdmx f with
      | None => None
      | Some p =>
          match tables h !! p with
          | None => None
          | Some (_, this) => Some (Serialize this out)
          end
      end
  end.

Definition ots_hdmx_reuse (font other : positive) (h : Heap) : option Heap :=
  match fonts h !! font, fonts h !! other with
  | Some f, Some o =>
      let f := set_hdmx (hdmx o) f in
      let f := set_hdmx_reused true f in
      Some (mkHeap (<[font := f]> (fonts h)) (tables h))
  | _, _ => None
  end.

Definition ots_hdmx_free (font : positive) (h : Heap) : option Heap :=
  match fonts h !! font with
  | None => None
  | Some f =>
      match hdmx f with
      | None => Some h
      | Some p => Some (mkHeap (fonts h) (delete p (tables h)))
      end
  end.

(** Modelled from the spec: the font-level driver is outside hdmx.cc.
    Section 2: "surviving tables later answer ShouldSerialize and, if true,
    Serialize into the output stream"; a table that answers no is left out
    and the stream stays as it is. *)
Definition emit_hdmx (out : OTSStream.t) (font : positive) (h : Heap)
    : option (bool * OTSStream.t) :=
  match ots_hdmx_should_serialise font h with
  | None => None
  | Some true => ots_hdmx_serialise out font h
  | Some false => Some (true, out)
  end.

(** ** The wire layout of the records *)

(** A device record on the wire, with the padding bytes that follow it. *)
Definition record_bytes (rp : OpenTypeHDMXDeviceRecord * list byte) : list byte :=
  pixel_size rp.1 :: max_width rp.1 :: widths rp.1 ++ rp.2.

Fixpoint records_bytes (rps : list (OpenTypeHDMXDeviceRecord * list byte))
    : list byte :=
  match rps with
  | [] => []
  | rp :: rps' => record_bytes rp ++ records_bytes rps'
  end.

(** A record has one width per glyph and is followed by [pad] bytes. *)
Definition record_fits (ng pad : Z)
    (rp : OpenTypeHDMXDeviceRecord * list byte) : Prop :=
  length (widths rp.1) = Z.to_nat ng /\ length rp.2 = Z.to_nat pad.

(** Each pixel size is above the one before it; [prev] is the pixel size
    before the first record, if there is one. *)
Fixpoint increasing_from (prev : option byte)
    (rs : list OpenTypeHDMXDeviceRecord) : bool :=
  match rs with
  | [] => true
  | r :: rs' =>
      match prev with
      | None => true
      | Some p => u8 p <? u8 (pixel_size r)
      end && increasing_from (Some (pixel_size r)) rs'
  end.

(** What the record loop compares the next pixel size with: nothing in its
    first iteration, [last_pixel_size] afterwards. *)
Definition prev_of (i : Z) (last_pixel_size : byte) : option byte :=
  if i =? 0 then None else Some last_pixel_size.

Definition last_pixel_size_after (last_pixel_size : byte)
    (rs : list OpenTypeHDMXDeviceRecord) : byte :=
  foldl (fun _ r => pixel_size r) last_pixel_size rs.

(** The padding [Serialize] writes after each record. *)
Definition zero_padded (pad : Z) (r : OpenTypeHDMXDeviceRecord)
    : OpenTypeHDMXDeviceRecord * list byte :=
  (r, replicate (Z.to_nat pad) x00).

(** [this] after the record loop pushed the records [rs]. *)
Definition records_extend (rs : list OpenTypeHDMXDeviceRecord)
    (this : OpenTypeHDMX) : OpenTypeHDMX :=
  mkHDMX (parsed_ok this) (version this) (size_device_record this) (pad_len this)
         (records this ++ rs).

(** Line 44 was reached: [pad_len] holds the surplus of the record size over
    [num_glyphs + 2], and the check of line 45 let it through. *)
Definition pad_len_computed (font : Font) (t : OpenTypeHDMX) : Prop :=
  exists mx : OpenTypeMAXP,
    maxp font = Some mx /\
    pad_len t = size_device_record t - (num_glyphs mx + 2) /\
    0 <= pad_len t <= 3.

(** The ordering of section 3: every record but the first has a pixel size
    above its predecessor's. *)
Definition strictly_increasing (rs : list OpenTypeHDMXDeviceRecord) : Prop :=
  forall (i : nat) (a b : OpenTypeHDMXDeviceRecord),
    rs !! i = Some a -> rs !! S i = Some b ->
    u8 (pixel_size a) < u8 (pixel_size b).

(** ** Concrete inputs *)

Definition bytes (l : list Z) : list byte := map byte_of_Z l.

Definition font_with (fl : Z) (ng : Z) (outline : bool) : Font :=
  mkFont (Some (mkHEAD fl)) (Some (mkMAXP ng))
         (if outline then Some 1%positive else None) None false.

(** The tables of the scenarios 1, 2, 3, 5 and 6 of section 8 of the spec,
    for a font of 3 glyphs. *)
Definition scenario1 : list byte := bytes [0;0; 0;1; 0;0;0;5; 12;10; 9;9;8].
Definition scenario2 : list byte :=
  bytes [0;0; 0;1; 0;0;0;8; 12;10; 9;9;8; 7;7;7].
Definition scenario3 : list byte :=
  bytes [0;0; 0;2; 0;0;0;5; 12;10; 9;9;8; 10;10; 9;9;8].

Definition scenario5 : list byte :=
  bytes [0;0; 255;255; 0;0;0;5; 12;10; 9;9;8].
Definition scenario6 : list byte := bytes [0;0; 0;1; 0;0;0;5; 12;10; 9;9].

(** One record of [size_device_record] 9 for 3 glyphs: four bytes too many. *)
Definition pad_four : list byte :=
  bytes [0;0; 0;1; 0;0;0;9; 12;10; 9;9;8; 0;0;0;0].

(** One record of [size_device_record] 4 for 3 glyphs: one byte too few. *)
Definition undersized : list byte :=
  bytes [0;0; 0;1; 0;0;0;4; 12;10; 9;9].

(** Two fonts of a collection, neither with an hdmx table yet. *)
Definition two_fonts : Heap :=
  mkHeap (<[2%positive := font_with 0x14 3 true]>
            {[1%positive := font_with 0x14 3 true]}) ∅.

(** Font 1 parses the table of scenario 1, font 2 adopts it, font 2 is
    freed. *)
Definition after_parse : Heap :=
  match ots_hdmx_parse 1 scenario1 two_fonts with
  | Some (_, h) => h
  | None => two_fonts
  end.

Definition after_reuse : Heap :=
  match ots_hdmx_reuse 2 1 after_parse with
  | Some h => h
  | None => after_parse
  end.

Definition after_free : Heap :=
  match ots_hdmx_free 2 after_reuse with
  | Some h => h
  | None => after_reuse
  end.

(** ** The tables Parse accepts *)

(** [data] is a table for [font]: head and maxp are there and the flags gate
    is open; the header has version 0, a positive record count and a record
    size [s] that leaves a padding of 0..3 bytes; behind the header lie as
    many records as the header counts, [rps], each with one width per glyph
    and its padding, in strictly increasing order of pixel size; [tail] is
    whatever follows the last record. *)
Definition table_layout (font : Font) (mx : OpenTypeMAXP) (s : Z)
    (rps : list (OpenTypeHDMXDeviceRecord * list byte)) (tail : list byte)
    (data : list byte) : Prop :=
  exists (hd : OpenTypeHEAD) (b0 b1 b2 b3 b4 b5 b6 b7 : byte),
    head font = Some hd /\ maxp font = Some mx /\
    Z.land (flags hd) 0x14 <> 0 /\
    data = b0 :: b1 :: b2 :: b3 :: b4 :: b5 :: b6 :: b7 ::
           records_bytes rps ++ tail /\
    be_u16 b0 b1 = 0 /\
    0 < be_s16 b2 b3 /\
    Z.to_nat (be_s16 b2 b3) = length rps /\
    be_s32 b4 b5 b6 b7 = s /\
    0 <= s - (num_glyphs mx + 2) <= 3 /\
    Forall (record_fits (num_glyphs mx) (s - (num_glyphs mx + 2))) rps /\
    increasing_from None rps.*1 = true.

(** The table object a successful Parse leaves. *)
Definition parsed_table (mx : OpenTypeMAXP) (s : Z)
    (rs : list OpenTypeHDMXDeviceRecord) : OpenTypeHDMX :=
  mkHDMX true 0 s (s - (num_glyphs mx + 2)) rs.

(** Seven bytes: a header cut short. *)
Definition short_header : list byte := bytes [0;0; 0;1; 0;0;0].

(** ** Where a failing Parse stops *)

(** The checks before the record loop pass: head and maxp are there, the
    flags gate is open, the 8 header bytes are there, with version 0, a
    positive record count and a padding of 0..3 bytes. *)
Definition reaches_records (font : Font) (data : list byte) : Prop :=
  exists (hd : OpenTypeHEAD) (mx : OpenTypeMAXP)
         (b0 b1 b2 b3 b4 b5 b6 b7 : byte) (rest : list byte),
    head font = Some hd /\ maxp font = Some mx /\
    Z.land (flags hd) 0x14 <> 0 /\
    data = b0 :: b1 :: b2 :: b3 :: b4 :: b5 :: b6 :: b7 :: rest /\
    be_u16 b0 b1 = 0 /\
    0 < be_s16 b2 b3 /\
    0 <= be_s32 b4 b5 b6 b7 - (num_glyphs mx + 2) <= 3.

(** The pixel size the next record is compared with, behind the records
    [rps]: the last one's, or [prev] when there is none. *)
Definition prev_after (prev : option byte)
    (rps : list (OpenTypeHDMXDeviceRecord * list byte)) : option byte :=
  match last rps with
  | Some rp => Some (pixel_size rp.1)
  | None => prev
  end.

(** The bytes [tail] at the cursor do not start with a record the loop
    takes: the pixel size or the max width is missing, or the pixel size is
    not above [prev], or fewer bytes follow than the widths and the padding
    need. *)
Definition record_fails (ng pad : Z) (prev : option byte) (tail : list byte)
    : Prop :=
  match tail with
  | ps :: _ :: rest =>
      (exists q, prev = Some q /\ u8 ps <= u8 q) \/
      (length rest < Z.to_nat ng + Z.to_nat pad)%nat
  | _ => True
  end.

(** * Properties *)

(** ** Bytes and fixed-width fields *)

Lemma u8_range (b : byte) : 0 <= u8 b <= 255.
Proof.
  unfold u8. pose proof (Byte.to_N_bounded b). lia.
Qed.

Lemma byte_of_Z_u8 (b : byte) : byte_of_Z (u8 b) = b.
Proof.
  unfold byte_of_Z. pose proof (u8_range b) as Hb.
  rewrite Z.mod_small by lia. unfold u8.
  rewrite N2Z.id, Byte.of_to_N. reflexivity.
Qed.

Lemma u8_byte_of_Z (z : Z) : u8 (byte_of_Z z) = z mod 256.
Proof.
  unfold byte_of_Z, u8.
  assert (Hm : 0 <= z mod 256 < 256) by (apply Z.mod_pos_bound; lia).
  destruct (Byte.of_N (Z.to_N (z mod 256))) as [b|] eqn:E.
  - apply Byte.to_of_N in E. rewrite E. lia.
  - apply Byte.of_N_None_iff in E. lia.
Qed.

Lemma be_u16_range (b0 b1 : byte) : 0 <= be_u16 b0 b1 <= 65535.
Proof.
  unfold be_u16. pose proof (u8_range b0). pose proof (u8_range b1). lia.
Qed.

Lemma be_s16_range (b0 b1 : byte) : -32768 <= be_s16 b0 b1 <= 32767.
Proof.
  unfold be_s16, wrap_s16.
  pose proof (Z.mod_pos_bound (be_u16 b0 b1 + 32768) 65536). lia.
Qed.

Lemma be_s32_range (b0 b1 b2 b3 : byte) :
  -2147483648 <= be_s32 b0 b1 b2 b3 <= 2147483647.
Proof.
  unfold be_s32, wrap_s32.
  pose proof (Z.mod_pos_bound (be_u32 b0 b1 b2 b3 + 2147483648) 4294967296). lia.
Qed.

Lemma be_u16_bytes (v : Z) :
  0 <= v <= 65535 ->
  be_u16 (byte_of_Z (v / 256)) (byte_of_Z v) = v.
Proof.
  intros Hv. unfold be_u16. rewrite !u8_byte_of_Z.
  rewrite (Z.mod_small (v / 256)) by (split; [apply Z.div_pos|apply Z.div_lt_upper_bound]; lia).
  pose proof (Z.div_mod v 256). lia.
Qed.

Lemma be_s16_bytes (v : Z) :
  -32768 <= v <= 32767 ->
  be_s16 (byte_of_Z (v mod 65536 / 256)) (byte_of_Z (v mod 65536)) = v.
Proof.
  intros Hv. unfold be_s16.
  rewrite be_u16_bytes by (pose proof (Z.mod_pos_bound v 65536); lia).
  unfold wrap_s16. rewrite Zplus_mod_idemp_l.
  rewrite Z.mod_small; lia.
Qed.

Lemma be_u32_bytes (v : Z) :
  0 <= v <= 4294967295 ->
  be_u32 (byte_of_Z (v / 16777216)) (byte_of_Z (v / 65536))
         (byte_of_Z (v / 256)) (byte_of_Z v) = v.
Proof.
  intros Hv. unfold be_u32. rewrite !u8_byte_of_Z.
  Z.div_mod_to_equations. lia.
Qed.

Lemma be_s32_bytes (v : Z) :
  -2147483648 <= v <= 2147483647 ->
  be_s32 (byte_of_Z (v mod 4294967296 / 16777216))
         (byte_of_Z (v mod 4294967296 / 65536))
         (byte_of_Z (v mod 4294967296 / 256))
         (byte_of_Z (v mod 4294967296)) = v.
Proof.
  intros Hv. unfold be_s32.
  rewrite be_u32_bytes by (pose proof (Z.mod_pos_bound v 4294967296); lia).
  unfold wrap_s32. rewrite Zplus_mod_idemp_l.
  rewrite Z.mod_small; lia.
Qed.

(** ** The bounded reader, seen from the bytes that remain *)

Lemma remaining_advance (n : nat) (b : Buffer.t) :
  Buffer.remaining (Buffer.advance n b) = drop n (Buffer.remaining b).
Proof.
  unfold Buffer.remaining, Buffer.advance; simpl. now rewrite drop_drop.
Qed.

Lemma ReadU8_Some (b b' : Buffer.t) (x : byte) :
  Buffer.ReadU8 b = Some (x, b') ->
  Buffer.remaining b = x :: Buffer.remaining b'.
Proof.
  unfold Buffer.ReadU8. destruct (Buffer.remaining b) as [|y l] eqn:E; [discriminate|].
  intros [= -> <-]. rewrite remaining_advance, E. reflexivity.
Qed.

Lemma ReadU8_cons (b : Buffer.t) (x : byte) (l : list byte) :
  Buffer.remaining b = x :: l ->
  exists b', Buffer.ReadU8 b = Some (x, b') /\ Buffer.remaining b' = l.
Proof.
  intros E. exists (Buffer.advance 1 b). unfold Buffer.ReadU8.
  rewrite remaining_advance, E. split; reflexivity.
Qed.

Lemma Parse_widths_Some (n : nat) :
  forall (b b' : Buffer.t) (acc ws : list byte),
    Parse_widths n b acc = Some (ws, b') ->
    exists w, ws = acc ++ w /\ length w = n /\
              Buffer.remaining b = w ++ Buffer.remaining b'.
Proof.
  induction n as [|n IH]; intros b b' acc ws; simpl.
  - intros [= <- <-]. exists []. now rewrite app_nil_r.
  - destruct (Buffer.ReadU8 b) as [[x b1]|] eqn:E; [|discriminate].
    intros H. apply IH in H as (w & -> & Hlen & Hrem).
    apply ReadU8_Some in E. exists (x :: w). split; [|split].
    + now rewrite <- app_assoc.
    + simpl. now rewrite Hlen.
    + rewrite E, Hrem. reflexivity.
Qed.

Lemma Parse_widths_app (w : list byte) :
  forall (b : Buffer.t) (acc l : list byte),
    Buffer.remaining b = w ++ l ->
    exists b', Parse_widths (length w) b acc = Some (acc ++ w, b') /\
               Buffer.remaining b' = l.
Proof.
  induction w as [|x w IH]; intros b acc l E; simpl.
  - exists b. now rewrite app_nil_r.
  - destruct (ReadU8_cons b x (w ++ l) E) as (b1 & -> & E1).
    destruct (IH b1 (acc ++ [x]) l E1) as (b' & -> & E').
    exists b'. now rewrite <- app_assoc.
Qed.

Lemma Skip_Some (n : Z) (b b' : Buffer.t) :
  Buffer.Skip n b = Some b' ->
  exists p, length p = Z.to_nat n /\
            Buffer.remaining b = p ++ Buffer.remaining b'.
Proof.
  unfold Buffer.Skip.
  destruct (0 <=? n) eqn:E0; [|discriminate].
  destruct (n <=? Z.of_nat (length (Buffer.remaining b))) eqn:E1; [|discriminate].
  simpl. intros [= <-]. exists (take (Z.to_nat n) (Buffer.remaining b)). split.
  - rewrite length_take. lia.
  - now rewrite remaining_advance, take_drop.
Qed.

Lemma Skip_app (p l : list byte) (b : Buffer.t) :
  Buffer.remaining b = p ++ l ->
  exists b', Buffer.Skip (Z.of_nat (length p)) b = Some b' /\
             Buffer.remaining b' = l.
Proof.
  intros E. exists (Buffer.advance (length p) b). unfold Buffer.Skip.
  rewrite E, length_app.
  replace (0 <=? Z.of_nat (length p)) with true by (symmetry; apply Z.leb_le; lia).
  replace (Z.of_nat (length p) <=? Z.of_nat (length p + length l)%nat) with true
    by (symmetry; apply Z.leb_le; lia).
  simpl. rewrite Nat2Z.id, remaining_advance, E, drop_app_length. split; reflexivity.
Qed.

(** ** The record loop *)

(** What a run of the record loop leaves behind, whatever its outcome: the
    records it pushed are laid out, in order, at the cursor. *)
Lemma Parse_records_inv (ng : Z) (todo : nat) :
  forall (i : Z) (last : byte) (table : Buffer.t) (this t : OpenTypeHDMX)
         (o : Outcome),
    0 <= i ->
    Parse_records ng todo i last table this = (o, t) ->
    exists rps tail,
      Buffer.remaining table = records_bytes rps ++ tail /\
      records t = records this ++ rps.*1 /\
      Forall (record_fits ng (pad_len this)) rps /\
      increasing_from (prev_of i last) rps.*1 = true /\
      (o = Success -> length rps = todo) /\
      (o <> Success -> (length rps < todo)%nat) /\
      version t = version this /\
      size_device_record t = size_device_record this /\
      pad_len t = pad_len this /\
      parsed_ok t = bool_decide (o = Success).
Proof.
  induction todo as [|todo IH]; intros i last table this t o Hi; simpl.
  - intros [= <- <-]. exists [], (Buffer.remaining table). simpl.
    rewrite app_nil_r. repeat split; try reflexivity; try congruence.
    constructor.
  - assert (Hstop : forall o', o' <> Success ->
              (o', set_parsed_ok false this) = (o, t) ->
              exists rps tail,
                Buffer.remaining table = records_bytes rps ++ tail /\
                records t = records this ++ rps.*1 /\
                Forall (record_fits ng (pad_len this)) rps /\
                increasing_from (prev_of i last) rps.*1 = true /\
                (o = Success -> length rps = S todo) /\
                (o <> Success -> (length rps < S todo)%nat) /\
                version t = version this /\
                size_device_record t = size_device_record this /\
                pad_len t = pad_len this /\
                parsed_ok t = bool_decide (o = Success)).
    { intros o' Ho' [= <- <-]. exists [], (Buffer.remaining table). simpl.
      rewrite app_nil_r. repeat split; try reflexivity; try congruence; try lia.
      - constructor.
      - now destruct o'. }
    destruct (Buffer.ReadU8 table) as [[ps table1]|] eqn:E1;
      [|apply Hstop; discriminate].
    destruct (Buffer.ReadU8 table1) as [[mw table2]|] eqn:E2;
      [|apply Hstop; discriminate].
    destruct (negb (i =? 0) && (u8 ps <=? u8 last)) eqn:Eord;
      [apply Hstop; discriminate|].
    destruct (Parse_widths (Z.to_nat ng) table2 []) as [[ws table3]|] eqn:E3;
      [|apply Hstop; discriminate].
    destruct (if 0 <? pad_len this then Buffer.Skip (pad_len this) table3
              else Some table3) as [table4|] eqn:E4;
      [|apply Hstop; discriminate].
    clear Hstop. intros H.
    apply IH in H as (rps & tail & Hrem & Hrec & Hfit & Hinc & Hok & Hko &
                      Hv & Hs & Hp & Hf); [|lia].
    apply ReadU8_Some in E1. apply ReadU8_Some in E2.
    apply Parse_widths_Some in E3 as (w & -> & Hw & E3). simpl in E3.
    assert (exists p, length p = Z.to_nat (pad_len this) /\
                      Buffer.remaining table3 = p ++ Buffer.remaining table4)
      as (p & Hplen & E4').
    { destruct (0 <? pad_len this) eqn:Epad.
      - now apply Skip_Some.
      - injection E4 as ->. exists []. apply Z.ltb_ge in Epad. split; [simpl; lia|reflexivity]. }
    exists ((mkDeviceRecord ps mw w, p) :: rps), tail.
    simpl in *. repeat split; try assumption.
    + unfold record_bytes; simpl.
      rewrite E1, E2, E3, E4', Hrem, <- !app_assoc. reflexivity.
    + rewrite Hrec, <- app_assoc. reflexivity.
    + constructor; [|assumption]. split; assumption.
    + apply andb_true_iff. split.
      * unfold prev_of. destruct (i =? 0); [reflexivity|].
        simpl in Eord. apply Z.leb_gt in Eord. now apply Z.ltb_lt.
      * unfold prev_of in Hinc. replace (i + 1 =? 0) with false in Hinc
          by (symmetry; apply Z.eqb_neq; lia). exact Hinc.
    + intros Ho. now rewrite Hok.
    + intros Ho. specialize (Hko Ho). lia.
Qed.

(** The record loop over records that are laid out at the cursor, complete
    and in order: it pushes them all and goes on behind them. *)
Lemma Parse_records_run (ng : Z)
    (rps : list (OpenTypeHDMXDeviceRecord * list byte)) :
  forall (k : nat) (i : Z) (last : byte) (table : Buffer.t)
         (this : OpenTypeHDMX) (tail : list byte),
    0 <= i ->
    Forall (record_fits ng (pad_len this)) rps ->
    increasing_from (prev_of i last) rps.*1 = true ->
    Buffer.remaining table = records_bytes rps ++ tail ->
    exists table',
      Buffer.remaining table' = tail /\
      Parse_records ng (length rps + k) i last table this =
      Parse_records ng k (i + Z.of_nat (length rps))
        (last_pixel_size_after last rps.*1) table' (records_extend rps.*1 this).
Proof.
  induction rps as [|[r p] rps IH]; intros k i last table this tail Hi Hfit Hinc Hrem.
  - exists table. simpl in *. split; [assumption|].
    rewrite Z.add_0_r. unfold records_extend. rewrite app_nil_r.
    now destruct this.
  - destruct r as [ps mw ws]. simpl in Hinc, Hrem.
    apply andb_true_iff in Hinc as [Hord Hinc].
    inversion Hfit as [|? ? [Hws Hp] Hfit']; subst. simpl in Hws, Hp.
    unfold record_bytes in Hrem; simpl in Hrem.
    destruct (ReadU8_cons table ps _ Hrem) as (table1 & E1 & Hrem1).
    destruct (ReadU8_cons table1 mw _ Hrem1) as (table2 & E2 & Hrem2).
    rewrite <- !app_assoc in Hrem2.
    destruct (Parse_widths_app ws table2 [] _ Hrem2) as (table3 & E3 & Hrem3).
    rewrite Hws in E3. simpl in E3.
    assert (exists table4,
               (if 0 <? pad_len this then Buffer.Skip (pad_len this) table3
                else Some table3) = Some table4 /\
               Buffer.remaining table4 = records_bytes rps ++ tail)
      as (table4 & E4 & Hrem4).
    { destruct (0 <? pad_len this) eqn:Epad.
      - apply Z.ltb_lt in Epad.
        destruct (Skip_app p _ table3 Hrem3) as (table4 & E4 & Hrem4).
        rewrite Hp, Z2Nat.id in E4 by lia. now exists table4.
      - apply Z.ltb_ge in Epad. exists table3. split; [reflexivity|].
        destruct p; [assumption|]. simpl in Hp. lia. }
    destruct (IH k (i + 1) ps table4
                (records_push_back (mkDeviceRecord ps mw ws) this) tail)
      as (table' & Hrem' & Hrun); try assumption; [lia| |].
    { unfold prev_of. replace (i + 1 =? 0) with false
        by (symmetry; apply Z.eqb_neq; lia). exact Hinc. }
    exists table'. split; [assumption|].
    simpl. rewrite E1, E2.
    replace (negb (i =? 0) && (u8 ps <=? u8 last)) with false.
    2:{ symmetry. unfold prev_of in Hord. destruct (i =? 0); [reflexivity|].
        simpl. apply Z.leb_gt. now apply Z.ltb_lt in Hord. }
    rewrite E3, E4, Hrun. f_equal.
    + lia.
    + unfold records_extend, records_push_back; simpl.
      now rewrite <- app_assoc.
Qed.

(** ** Parse, phase by phase *)

(** The subtraction of line 44 stays within [int32_t]: [num_glyphs] is a
    [uint16_t] and the check of line 40 has passed. *)
Lemma pad_len_no_overflow (s ng : Z) :
  -2147483648 <= s <= 2147483647 ->
  0 <= ng <= 65535 ->
  ng + 2 <= s ->
  wrap_s32 (ng + 2) = ng + 2 /\ wrap_s32 (s - (ng + 2)) = s - (ng + 2).
Proof.
  intros Hs Hng Hle. unfold wrap_s32. split; rewrite Z.mod_small; lia.
Qed.

(** The table state when the record loop starts. *)
Lemma Parse_header (font : Font) (hd : OpenTypeHEAD) (mx : OpenTypeMAXP)
    (this : OpenTypeHDMX) (b0 b1 b2 b3 b4 b5 b6 b7 : byte) (rest : list byte) :
  head font = Some hd ->
  maxp font = Some mx ->
  Z.land (flags hd) 0x14 <> 0 ->
  exists table,
    Buffer.remaining table = rest /\
    Parse font this (b0 :: b1 :: b2 :: b3 :: b4 :: b5 :: b6 :: b7 :: rest) =
    let v := be_u16 b0 b1 in
    let n := be_s16 b2 b3 in
    let s := be_s32 b4 b5 b6 b7 in
    let this1 := set_size_device_record s (set_version v this) in
    if negb (v =? 0) then Table_Drop this1 else
    if n <=? 0 then Table_Drop this1 else
    if s <? num_glyphs mx + 2 then Table_Drop this1 else
    let this2 := set_pad_len (s - (num_glyphs mx + 2)) this1 in
    if 3 <? s - (num_glyphs mx + 2) then Table_Error this2 else
    Parse_records (num_glyphs mx) (Z.to_nat n) 0 x00 table this2.
Proof.
  intros Hh Hm Hfl. eexists. split; [|unfold Parse; rewrite Hh, Hm].
  2:{ apply Z.eqb_neq in Hfl. rewrite Hfl. cbn -[Z.mul Z.add be_u16 be_s16 be_s32 Z.to_nat Z.leb Z.ltb Z.eqb].
      reflexivity. }
  reflexivity.
Qed.

(** Every way [Parse] can end: either before the record loop, with the
    records untouched, or in or after the loop, with the header valid and the
    records pushed so far laid out in the input behind the header. *)
Lemma Parse_inv (font : Font) (this t : OpenTypeHDMX) (data : list byte)
    (o : Outcome) :
  Parse font this data = (o, t) ->
  (o <> Success /\ records t = records this /\ parsed_ok t = false /\
   (o = Error \/ pad_len t = pad_len this)) \/
  (exists hd mx b0 b1 b2 b3 b4 b5 b6 b7 rps tail,
      head font = Some hd /\ maxp font = Some mx /\
      Z.land (flags hd) 0x14 <> 0 /\
      data = b0 :: b1 :: b2 :: b3 :: b4 :: b5 :: b6 :: b7 ::
             records_bytes rps ++ tail /\
      be_u16 b0 b1 = 0 /\
      0 < be_s16 b2 b3 /\
      0 <= be_s32 b4 b5 b6 b7 - (num_glyphs mx + 2) <= 3 /\
      records t = records this ++ rps.*1 /\
      Forall (record_fits (num_glyphs mx) (pad_len t)) rps /\
      increasing_from None rps.*1 = true /\
      (o = Success -> length rps = Z.to_nat (be_s16 b2 b3)) /\
      (o <> Success -> (length rps < Z.to_nat (be_s16 b2 b3))%nat) /\
      version t = 0 /\
      size_device_record t = be_s32 b4 b5 b6 b7 /\
      pad_len t = be_s32 b4 b5 b6 b7 - (num_glyphs mx + 2) /\
      parsed_ok t = bool_decide (o = Success)).
Proof.
  assert (Hearly : forall o' this',
             o' <> Success -> records this' = records this ->
             (o' = Error \/ pad_len this' = pad_len this) ->
             (o', set_parsed_ok false this') = (o, t) ->
             (o <> Success /\ records t = records this /\ parsed_ok t = false /\
              (o = Error \/ pad_len t = pad_len this))).
  { intros o' this' Ho' Hr Hp [= <- <-]. simpl. auto. }
  destruct (head font) as [hd|] eqn:Hh.
  2:{ unfold Parse. rewrite Hh. intros H. left.
      apply (Hearly Error this); [discriminate|reflexivity|now left|].
      destruct (maxp font); exact H. }
  destruct (maxp font) as [mx|] eqn:Hm.
  2:{ unfold Parse. rewrite Hh, Hm. intros H. left.
      apply (Hearly Error this); [discriminate|reflexivity|auto|exact H]. }
  destruct (Z.eq_dec (Z.land (flags hd) 0x14) 0) as [Hfl|Hfl].
  { unfold Parse. rewrite Hh, Hm, Hfl. simpl. intros H. left.
    apply (Hearly Drop this); [discriminate|reflexivity|auto|exact H]. }
  destruct data as [|b0 [|b1 [|b2 [|b3 [|b4 [|b5 [|b6 [|b7 rest]]]]]]]].
  1-8: unfold Parse; rewrite Hh, Hm; apply Z.eqb_neq in Hfl; rewrite Hfl;
       cbn -[Z.mul Z.add be_u16 be_s16 be_s32 Z.to_nat Z.leb Z.ltb Z.eqb];
       intros H; left;
       eapply (Hearly Error); [discriminate| | |exact H]; [reflexivity|auto].
  destruct (Parse_header font hd mx this b0 b1 b2 b3 b4 b5 b6 b7 rest Hh Hm Hfl)
    as (table & Hrem & ->).
  cbv zeta.
  destruct (be_u16 b0 b1 =? 0) eqn:Ev; simpl negb; cbv iota.
  2:{ intros H. left. eapply (Hearly Drop); [discriminate| | |exact H]; [reflexivity|auto]. }
  destruct (be_s16 b2 b3 <=? 0) eqn:En.
  { intros H. left. eapply (Hearly Drop); [discriminate| | |exact H]; [reflexivity|auto]. }
  destruct (be_s32 b4 b5 b6 b7 <? num_glyphs mx + 2) eqn:Es.
  { intros H. left. eapply (Hearly Drop); [discriminate| | |exact H]; [reflexivity|auto]. }
  destruct (3 <? be_s32 b4 b5 b6 b7 - (num_glyphs mx + 2)) eqn:Ep.
  { intros H. left. eapply (Hearly Error); [discriminate| | |exact H]; [reflexivity|auto]. }
  intros H. right.
  apply Parse_records_inv in H as (rps & tail & Hrps & Hrec & Hfit & Hinc & Hok &
                                   Hko & Hv & Hs & Hp & Hf); [|lia].
  simpl in Hrec, Hfit, Hv, Hs, Hp.
  apply Z.eqb_eq in Ev. apply Z.leb_gt in En. apply Z.ltb_ge in Es, Ep.
  exists hd, mx, b0, b1, b2, b3, b4, b5, b6, b7, rps, tail.
  rewrite Hp. rewrite Hrem in Hrps. subst rest.
  repeat split; try assumption; try lia.
  now rewrite Hrps.
Qed.

(** [Parse] on an input whose header is valid and is followed by complete
    records in order: the record loop pushes them and goes on behind them. *)
Lemma Parse_layout (font : Font) (hd : OpenTypeHEAD) (mx : OpenTypeMAXP)
    (this : OpenTypeHDMX) (b0 b1 b2 b3 b4 b5 b6 b7 : byte)
    (rps : list (OpenTypeHDMXDeviceRecord * list byte)) (tail : list byte) :
  let n := be_s16 b2 b3 in
  let s := be_s32 b4 b5 b6 b7 in
  let pad := s - (num_glyphs mx + 2) in
  head font = Some hd ->
  maxp font = Some mx ->
  Z.land (flags hd) 0x14 <> 0 ->
  be_u16 b0 b1 = 0 ->
  0 <= pad <= 3 ->
  Forall (record_fits (num_glyphs mx) pad) rps ->
  increasing_from None rps.*1 = true ->
  forall k : nat, Z.to_nat n = (length rps + k)%nat -> 0 < n ->
  exists table',
    Buffer.remaining table' = tail /\
    Parse font this
      (b0 :: b1 :: b2 :: b3 :: b4 :: b5 :: b6 :: b7 :: records_bytes rps ++ tail) =
    Parse_records (num_glyphs mx) k (Z.of_nat (length rps))
      (last_pixel_size_after x00 rps.*1) table'
      (records_extend rps.*1
         (set_pad_len pad
            (set_size_device_record s (set_version (be_u16 b0 b1) this)))).
Proof.
  intros n s pad Hh Hm Hfl Hv Hpad Hfit Hinc k Hk Hn.
  destruct (Parse_header font hd mx this b0 b1 b2 b3 b4 b5 b6 b7
              (records_bytes rps ++ tail) Hh Hm Hfl) as (table & Hrem & ->).
  cbv zeta. fold n s pad. rewrite Hv. simpl negb. cbv iota.
  replace (n <=? 0) with false by (symmetry; apply Z.leb_gt; lia).
  replace (s <? num_glyphs mx + 2) with false by (symmetry; apply Z.ltb_ge; lia).
  replace (3 <? pad) with false by (symmetry; apply Z.ltb_ge; lia).
  rewrite Hk.
  destruct (Parse_records_run (num_glyphs mx) rps k 0 x00 table
              (set_pad_len pad (set_size_device_record s (set_version 0 this)))
              tail) as (table' & Hrem' & ->); try assumption; [lia|].
  exists table'. split; [assumption|]. reflexivity.
Qed.

(** ** Serialize *)

Lemma Write_Some (bs : list byte) (out out' : OTSStream.t) :
  OTSStream.Write bs out = Some out' ->
  OTSStream.written out' = OTSStream.written out ++ bs /\
  OTSStream.accepts out' = OTSStream.accepts out.
Proof.
  unfold OTSStream.Write.
  destruct (OTSStream.accepts out (OTSStream.written out) bs); [|discriminate].
  intros [= <-]. split; reflexivity.
Qed.

Lemma take_zero_literal (pad : Z) :
  pad <= 4 ->
  take (Z.to_nat pad) [x00; x00; x00; x00] = replicate (Z.to_nat pad) x00.
Proof.
  intros Hpad.
  assert (Z.to_nat pad = 0 \/ Z.to_nat pad = 1 \/ Z.to_nat pad = 2 \/
          Z.to_nat pad = 3 \/ Z.to_nat pad = 4)%nat
    as [->|[->|[->|[->| ->]]]] by lia; reflexivity.
Qed.

Lemma Write_accepted (bs : list byte) (out : OTSStream.t) :
  (forall w r, OTSStream.accepts out w r = true) ->
  exists out', OTSStream.Write bs out = Some out' /\
               (forall w r, OTSStream.accepts out' w r = true).
Proof.
  intros Hacc. unfold OTSStream.Write. rewrite Hacc. eexists. split; [reflexivity|].
  exact Hacc.
Qed.

(** A record loop of [Serialize] that succeeds has appended the records from
    index [i] on, each followed by [pad_len] zero bytes. *)
Lemma Serialize_records_true (this : OpenTypeHDMX) (todo : nat) :
  forall (i : nat) (out out' : OTSStream.t),
    Serialize_records this todo i out = (true, out') ->
    OTSStream.written out' =
      OTSStream.written out ++
      records_bytes (map (zero_padded (pad_len this))
                         (take todo (drop i (records this)))).
Proof.
  induction todo as [|todo IH]; intros i out out'; simpl.
  - intros [= <-]. now rewrite app_nil_r.
  - destruct (records this !! i) as [rec|] eqn:Ei; [|discriminate].
    destruct (OTSStream.Write [pixel_size rec] out) as [out1|] eqn:E1; [|discriminate].
    destruct (OTSStream.Write [max_width rec] out1) as [out2|] eqn:E2; [|discriminate].
    destruct (OTSStream.Write (widths rec) out2) as [out3|] eqn:E3; [|discriminate].
    destruct (if 0 <? pad_len this
              then if pad_len this <=? 4
                   then OTSStream.Write
                          (take (Z.to_nat (pad_len this)) [x00; x00; x00; x00]) out3
                   else None
              else Some out3) as [out4|] eqn:E4; [|discriminate].
    intros H. apply IH in H.
    apply Write_Some in E1 as [E1 _]. apply Write_Some in E2 as [E2 _].
    apply Write_Some in E3 as [E3 _].
    assert (OTSStream.written out4 =
            OTSStream.written out3 ++ replicate (Z.to_nat (pad_len this)) x00) as E4'.
    { destruct (0 <? pad_len this) eqn:Epad.
      - destruct (pad_len this <=? 4) eqn:Efour; [|discriminate].
        apply Z.leb_le in Efour. apply Write_Some in E4 as [E4 _].
        now rewrite E4, take_zero_literal.
      - injection E4 as <-. apply Z.ltb_ge in Epad.
        replace (Z.to_nat (pad_len this)) with 0%nat by lia.
        simpl. now rewrite app_nil_r. }
    rewrite (drop_S _ _ _ Ei). simpl.
    rewrite H, E4', E3, E2, E1, <- !app_assoc. reflexivity.
Qed.

Lemma Serialize_records_accepted (this : OpenTypeHDMX) (todo : nat) :
  forall (i : nat) (out : OTSStream.t),
    (forall w r, OTSStream.accepts out w r = true) ->
    (i + todo <= length (records this))%nat ->
    pad_len this <= 4 ->
    (Serialize_records this todo i out).1 = true.
Proof.
  induction todo as [|todo IH]; intros i out Hacc Hlen Hpad; simpl; [reflexivity|].
  destruct (lookup_lt_is_Some_2 (records this) i) as [rec ->]; [lia|].
  destruct (Write_accepted [pixel_size rec] out Hacc) as (out1 & -> & Hacc1).
  destruct (Write_accepted [max_width rec] out1 Hacc1) as (out2 & -> & Hacc2).
  destruct (Write_accepted (widths rec) out2 Hacc2) as (out3 & -> & Hacc3).
  destruct (0 <? pad_len this).
  - replace (pad_len this <=? 4) with true by (symmetry; apply Z.leb_le; lia).
    destruct (Write_accepted (take (Z.to_nat (pad_len this)) [x00; x00; x00; x00])
                out3 Hacc3) as (out4 & -> & Hacc4).
    apply IH; [assumption|lia|assumption].
  - apply IH; [assumption|lia|assumption].
Qed.

Lemma wrap_s16_small (z : Z) : -32768 <= z <= 32767 -> wrap_s16 z = z.
Proof. intros Hz. unfold wrap_s16. rewrite Z.mod_small; lia. Qed.

(** What a successful [Serialize] has written. *)
Lemma Serialize_true (this : OpenTypeHDMX) (out out' : OTSStream.t) :
  Serialize this out = (true, out') ->
  Z.of_nat (length (records this)) <= 32767 /\
  OTSStream.written out' =
    OTSStream.written out ++
    bytes_u16 (version this) ++
    bytes_s16 (Z.of_nat (length (records this))) ++
    bytes_s32 (size_device_record this) ++
    records_bytes (map (zero_padded (pad_len this)) (records this)).
Proof.
  unfold Serialize.
  destruct (32767 <? Z.of_nat (length (records this))) eqn:Eg; [discriminate|].
  apply Z.ltb_ge in Eg. rewrite wrap_s16_small by lia.
  unfold OTSStream.WriteU16, OTSStream.WriteS16, OTSStream.WriteS32.
  destruct (OTSStream.Write (bytes_u16 (version this)) out) as [out1|] eqn:E1;
    [|discriminate].
  destruct (OTSStream.Write _ out1) as [out2|] eqn:E2; [|discriminate].
  destruct (OTSStream.Write _ out2) as [out3|] eqn:E3; [|discriminate].
  intros H. apply Serialize_records_true in H.
  apply Write_Some in E1 as [E1 _]. apply Write_Some in E2 as [E2 _].
  apply Write_Some in E3 as [E3 _].
  split; [assumption|].
  rewrite H, E3, E2, E1, Nat2Z.id, <- !app_assoc.
  simpl drop. now rewrite firstn_all.
Qed.

(** On a sink that takes every write, only the guard on the record count can
    make [Serialize] fail. *)
Lemma Serialize_accepted (this : OpenTypeHDMX) (out : OTSStream.t) :
  (forall w r, OTSStream.accepts out w r = true) ->
  Z.of_nat (length (records this)) <= 32767 ->
  pad_len this <= 4 ->
  (Serialize this out).1 = true.
Proof.
  intros Hacc Hlen Hpad. unfold Serialize.
  replace (32767 <? Z.of_nat (length (records this))) with false
    by (symmetry; apply Z.ltb_ge; lia).
  rewrite wrap_s16_small by lia.
  unfold OTSStream.WriteU16, OTSStream.WriteS16, OTSStream.WriteS32.
  destruct (Write_accepted (bytes_u16 (version this)) out Hacc)
    as (out1 & -> & Hacc1).
  destruct (Write_accepted (bytes_s16 (Z.of_nat (length (records this)))) out1 Hacc1)
    as (out2 & -> & Hacc2).
  destruct (Write_accepted (bytes_s32 (size_device_record this)) out2 Hacc2)
    as (out3 & -> & Hacc3).
  apply Serialize_records_accepted; [assumption|lia|assumption].
Qed.

Lemma zero_padded_fst (pad : Z) (rs : list OpenTypeHDMXDeviceRecord) :
  (map (zero_padded pad) rs).*1 = rs.
Proof.
  induction rs as [|r rs IH]; simpl; [reflexivity|]. f_equal. exact IH.
Qed.

(** What a successful [Parse] of a table constructed empty leaves. *)
Lemma Parse_Success_inv (font : Font) (this t : OpenTypeHDMX) (data : list byte) :
  records this = [] ->
  Parse font this data = (Success, t) ->
  exists hd mx,
    head font = Some hd /\ maxp font = Some mx /\
    Z.land (flags hd) 0x14 <> 0 /\
    version t = 0 /\
    -2147483648 <= size_device_record t <= 2147483647 /\
    pad_len t = size_device_record t - (num_glyphs mx + 2) /\
    0 <= pad_len t <= 3 /\
    1 <= Z.of_nat (length (records t)) <= 32767 /\
    Forall (fun r => length (widths r) = Z.to_nat (num_glyphs mx)) (records t) /\
    increasing_from None (records t) = true /\
    parsed_ok t = true.
Proof.
  intros Hempty H. apply Parse_inv in H as [[Ho _]|H]; [congruence|].
  destruct H as (hd & mx & b0 & b1 & b2 & b3 & b4 & b5 & b6 & b7 & rps & tail &
                 Hh & Hm & Hfl & Hdata & Hv & Hn & Hpad & Hrec & Hfit & Hinc & Hok &
                 _ & Hvt & Hst & Hpt & Hf).
  rewrite Hempty in Hrec; simpl in Hrec.
  exists hd, mx. rewrite Hrec, Hst, Hpt, length_fmap, (Hok eq_refl).
  pose proof (be_s16_range b2 b3). pose proof (be_s32_range b4 b5 b6 b7).
  repeat split; try assumption; try lia.
  clear -Hfit. induction Hfit as [|rp rps [Hw _] _ IH]; simpl; constructor; assumption.
Qed.

(** ** The ordering of the records *)

Lemma increasing_from_spec (rs : list OpenTypeHDMXDeviceRecord) :
  forall prev : option byte,
    increasing_from prev rs = true <->
    match prev, rs with
    | Some p, r :: _ => u8 p < u8 (pixel_size r)
    | _, _ => True
    end /\ strictly_increasing rs.
Proof.
  induction rs as [|r rs IH]; intros prev; simpl.
  - split; [intros _|reflexivity]. split; [now destruct prev|].
    intros i a b Ha. now rewrite lookup_nil in Ha.
  - rewrite andb_true_iff, IH. split.
    + intros [Hp [Hr Hrs]]. split.
      * destruct prev; [now apply Z.ltb_lt|exact I].
      * intros [|i] a b Ha Hb; simpl in Ha, Hb.
        -- injection Ha as <-. destruct rs; [discriminate|].
           simpl in Hb. injection Hb as <-. exact Hr.
        -- exact (Hrs i a b Ha Hb).
    + intros [Hp Hrs]. split; [|split].
      * destruct prev; [now apply Z.ltb_lt|reflexivity].
      * destruct rs as [|r' rs]; [exact I|]. exact (Hrs 0%nat r r' eq_refl eq_refl).
      * intros i a b Ha Hb. exact (Hrs (S i) a b Ha Hb).
Qed.

Lemma increasing_from_None (rs : list OpenTypeHDMXDeviceRecord) :
  increasing_from None rs = true <-> strictly_increasing rs.
Proof.
  rewrite increasing_from_spec. tauto.
Qed.

(** One turn of the record loop on a complete record. *)
Lemma Parse_records_step (ng : Z) (todo : nat) (i : Z) (last : byte)
    (table : Buffer.t) (this : OpenTypeHDMX)
    (rp : OpenTypeHDMXDeviceRecord * list byte) (rest : list byte) :
  record_fits ng (pad_len this) rp ->
  Buffer.remaining table = record_bytes rp ++ rest ->
  exists table',
    Buffer.remaining table' = rest /\
    Parse_records ng (S todo) i last table this =
    if negb (i =? 0) && (u8 (pixel_size rp.1) <=? u8 last)
    then Table_Drop this
    else Parse_records ng todo (i + 1) (pixel_size rp.1) table'
           (records_push_back rp.1 this).
Proof.
  destruct rp as [[ps mw ws] p]. intros [Hws Hp] Hrem. simpl in Hws, Hp.
  unfold record_bytes in Hrem; simpl in Hrem.
  destruct (ReadU8_cons table ps _ Hrem) as (table1 & E1 & Hrem1).
  destruct (ReadU8_cons table1 mw _ Hrem1) as (table2 & E2 & Hrem2).
  rewrite <- !app_assoc in Hrem2.
  destruct (Parse_widths_app ws table2 [] _ Hrem2) as (table3 & E3 & Hrem3).
  rewrite Hws in E3. simpl in E3.
  assert (exists table4,
             (if 0 <? pad_len this then Buffer.Skip (pad_len this) table3
              else Some table3) = Some table4 /\
             Buffer.remaining table4 = rest)
    as (table4 & E4 & Hrem4).
  { destruct (0 <? pad_len this) eqn:Epad.
    - apply Z.ltb_lt in Epad.
      destruct (Skip_app p _ table3 Hrem3) as (table4 & E4 & Hrem4).
      rewrite Hp, Z2Nat.id in E4 by lia. now exists table4.
    - apply Z.ltb_ge in Epad. exists table3. split; [reflexivity|].
      destruct p; [assumption|]. simpl in Hp. lia. }
  exists table4. split; [assumption|].
  simpl. rewrite E1, E2.
  destruct (negb (i =? 0) && (u8 ps <=? u8 last)); [reflexivity|].
  now rewrite E3, E4.
Qed.

(** Records laid out at the cursor, complete but not in order: the loop
    drops the table at the first record that is not above its predecessor. *)
Lemma Parse_records_unsorted (ng : Z)
    (rps : list (OpenTypeHDMXDeviceRecord * list byte)) :
  forall (k : nat) (i : Z) (last : byte) (table : Buffer.t)
         (this : OpenTypeHDMX) (tail : list byte),
    0 <= i ->
    Forall (record_fits ng (pad_len this)) rps ->
    increasing_from (prev_of i last) rps.*1 = false ->
    Buffer.remaining table = records_bytes rps ++ tail ->
    (Parse_records ng (length rps + k) i last table this).1 = Drop.
Proof.
  induction rps as [|rp rps IH]; intros k i last table this tail Hi Hfit Hinc Hrem.
  - discriminate.
  - inversion Hfit as [|? ? Hfit1 Hfit']; subst.
    simpl in Hrem. rewrite <- app_assoc in Hrem.
    destruct (Parse_records_step ng (length rps + k) i last table this rp _
                Hfit1 Hrem) as (table' & Hrem' & E).
    change (length (rp :: rps) + k)%nat with (S (length rps + k)).
    rewrite E. clear E.
    destruct (negb (i =? 0) && (u8 (pixel_size rp.1) <=? u8 last)) eqn:Eord;
      [reflexivity|].
    apply (IH k (i + 1) (pixel_size rp.1) table' _ tail); try assumption; [lia|].
    simpl in Hinc. apply andb_false_iff in Hinc as [Hinc|Hinc].
    + exfalso. unfold prev_of in Hinc. destruct (i =? 0); [discriminate|].
      simpl in Eord. apply Z.leb_gt in Eord. apply Z.ltb_ge in Hinc. lia.
    + unfold prev_of. replace (i + 1 =? 0) with false
        by (symmetry; apply Z.eqb_neq; lia). exact Hinc.
Qed.

(** ** The scenarios of the spec *)

Example scenario1_parses :
  Parse (font_with 0x14 3 true) OpenTypeHDMX_new scenario1 =
  (Success,
   mkHDMX true 0 5 0 [mkDeviceRecord x0c x0a [x09; x09; x08]]).
Proof. vm_compute. reflexivity. Qed.

Example scenario1_serializes :
  Serialize (Parse (font_with 0x14 3 true) OpenTypeHDMX_new scenario1).2
    OTSStream.unbounded =
  (true, OTSStream.mk scenario1 (fun _ _ => true)).
Proof. vm_compute. reflexivity. Qed.

Example scenario2_pads_with_zeros :
  OTSStream.written
    (Serialize (Parse (font_with 0x14 3 true) OpenTypeHDMX_new scenario2).2
       OTSStream.unbounded).2 =
  bytes [0;0; 0;1; 0;0;0;8; 12;10; 9;9;8; 0;0;0].
Proof. vm_compute. reflexivity. Qed.

Example scenario3_drops :
  (Parse (font_with 0x14 3 true) OpenTypeHDMX_new scenario3).1 = Drop.
Proof. vm_compute. reflexivity. Qed.

(** With neither bit 2 nor bit 4 in head.flags the table is dropped unread. *)
Example flags_0x03_drops :
  Parse (font_with 0x03 3 true) OpenTypeHDMX_new scenario1 =
  (Drop, OpenTypeHDMX_new).
Proof. vm_compute. reflexivity. Qed.

Example scenario5_drops :
  (Parse (font_with 0x14 3 true) OpenTypeHDMX_new scenario5).1 = Drop.
Proof. vm_compute. reflexivity. Qed.

Example scenario6_errors :
  (Parse (font_with 0x14 3 true) OpenTypeHDMX_new scenario6).1 = Error.
Proof. vm_compute. reflexivity. Qed.

(** * The claims *)

(** ** Prerequisites and the flags gate *)

(** C7: on a font lacking the head table or the maxp table, Parse returns
    Error (not Drop) whatever the hdmx data is, and leaves the fields of the
    table as they were: no byte of the data has been read. *)
Theorem Parse_missing_prerequisite (font : Font) (this : OpenTypeHDMX)
    (data : list byte) :
  head font = None \/ maxp font = None ->
  Parse font this data = (Error, set_parsed_ok false this) /\
  Parse font this data = Parse font this [].
Proof.
  intros H. unfold Parse.
  destruct (head font) as [hd|], (maxp font) as [mx|];
    try (split; reflexivity).
  destruct H; discriminate.
Qed.

Lemma Parse_missing_prerequisite_witness :
  (head (mkFont None (Some (mkMAXP 3)) (Some 1%positive) None false) = None \/
   maxp (mkFont None (Some (mkMAXP 3)) (Some 1%positive) None false) = None) /\
  Parse (mkFont None (Some (mkMAXP 3)) (Some 1%positive) None false)
        OpenTypeHDMX_new scenario1
  = (Error, set_parsed_ok false OpenTypeHDMX_new).
Proof.
  split; [left; reflexivity|].
  apply (Parse_missing_prerequisite _ OpenTypeHDMX_new scenario1).
  left; reflexivity.
Defined.

Lemma testbit_0x14 (n : Z) : Z.testbit 0x14 n = (n =? 2) || (n =? 4).
Proof.
  destruct (Z_lt_le_dec n 0) as [Hn|Hn].
  { rewrite Z.testbit_neg_r by lia.
    symmetry. apply orb_false_iff. split; apply Z.eqb_neq; lia. }
  destruct (Z_lt_le_dec n 5) as [Hn5|Hn5].
  - assert (n = 0 \/ n = 1 \/ n = 2 \/ n = 3 \/ n = 4) as [->|[->|[->|[->| ->]]]]
      by lia; reflexivity.
  - rewrite Z.bits_above_log2 by (simpl; lia).
    symmetry. apply orb_false_iff. split; apply Z.eqb_neq; lia.
Qed.

Lemma flags_mask_zero (fl : Z) :
  Z.land fl 0x14 = 0 <-> Z.testbit fl 2 = false /\ Z.testbit fl 4 = false.
Proof.
  split.
  - intros H. split.
    + assert (E : Z.testbit (Z.land fl 0x14) 2 = false) by (rewrite H; reflexivity).
      rewrite Z.land_spec, testbit_0x14 in E. simpl in E.
      now rewrite andb_true_r in E.
    + assert (E : Z.testbit (Z.land fl 0x14) 4 = false) by (rewrite H; reflexivity).
      rewrite Z.land_spec, testbit_0x14 in E. simpl in E.
      now rewrite andb_true_r in E.
  - intros [H2 H4]. apply Z.bits_inj'. intros n Hn.
    rewrite Z.land_spec, testbit_0x14, Z.bits_0.
    destruct (n =? 2) eqn:E2; [apply Z.eqb_eq in E2; subst; now rewrite H2|].
    destruct (n =? 4) eqn:E4; [apply Z.eqb_eq in E4; subst; now rewrite H4|].
    apply andb_false_r.
Qed.

(** C1, as the code has it: with head and maxp present, Parse returns Drop
    at the flags gate, before the header is read and with the table's fields
    untouched, exactly when head.flags has neither bit 2 nor bit 4 set.  When
    at least one of the two bits is set the gate lets every table through
    and the header is read: an input of fewer than 8 bytes is an Error, and
    on any input with its 8 header bytes Parse stores the version and the
    record size read and goes on as lines 33-81 say (version, record count,
    record size and padding checks, then the record loop behind the
    header), the flags playing no further part. *)
Theorem Parse_flags_gate (font : Font) (hd : OpenTypeHEAD) (mx : OpenTypeMAXP)
    (this : OpenTypeHDMX) (data : list byte)
    (b0 b1 b2 b3 b4 b5 b6 b7 : byte) (rest : list byte) :
  head font = Some hd ->
  maxp font = Some mx ->
  (Z.testbit (flags hd) 2 = false /\ Z.testbit (flags hd) 4 = false ->
   Parse font this data = (Drop, set_parsed_ok false this)) /\
  (Z.testbit (flags hd) 2 = true \/ Z.testbit (flags hd) 4 = true ->
   ((length data < 8)%nat ->
    (Parse font this data).1 = Error /\
    records (Parse font this data).2 = records this) /\
   Parse font this (b0 :: b1 :: b2 :: b3 :: b4 :: b5 :: b6 :: b7 :: rest) =
   let v := be_u16 b0 b1 in
   let n := be_s16 b2 b3 in
   let s := be_s32 b4 b5 b6 b7 in
   let this1 := set_size_device_record s (set_version v this) in
   if negb (v =? 0) then Table_Drop this1 else
   if n <=? 0 then Table_Drop this1 else
   if s <? num_glyphs mx + 2 then Table_Drop this1 else
   let this2 := set_pad_len (s - (num_glyphs mx + 2)) this1 in
   if 3 <? s - (num_glyphs mx + 2) then Table_Error this2 else
   Parse_records (num_glyphs mx) (Z.to_nat n) 0 x00
     (Buffer.mk (b0 :: b1 :: b2 :: b3 :: b4 :: b5 :: b6 :: b7 :: rest) 8)
     this2).
Proof.
  intros Hh Hm. split.
  - intros H. apply flags_mask_zero in H. unfold Parse. now rewrite Hh, Hm, H.
  - intros H.
    assert (Hfl : (Z.land (flags hd) 0x14 =? 0) = false).
    { destruct (Z.land (flags hd) 0x14 =? 0) eqn:E; [|reflexivity].
      apply Z.eqb_eq, flags_mask_zero in E as [E2 E4].
      rewrite E2, E4 in H. destruct H; discriminate. }
    split.
    + intros Hlen. unfold Parse. rewrite Hh, Hm, Hfl.
      destruct data as [|c0 [|c1 [|c2 [|c3 [|c4 [|c5 [|c6 [|c7 tl]]]]]]]];
        try (cbn -[Z.mul Z.add be_u16 be_s16 be_s32]; split; reflexivity).
      simpl in Hlen. lia.
    + unfold Parse. rewrite Hh, Hm, Hfl.
      cbn -[Z.mul Z.add be_u16 be_s16 be_s32 Z.to_nat Z.leb Z.ltb Z.eqb].
      reflexivity.
Qed.

Lemma Parse_flags_gate_witness :
  head (font_with 0x03 3 true) = Some (mkHEAD 0x03) /\
  maxp (font_with 0x03 3 true) = Some (mkMAXP 3) /\
  Z.testbit 0x03 2 = false /\ Z.testbit 0x03 4 = false /\
  Parse (font_with 0x03 3 true) OpenTypeHDMX_new scenario1
  = (Drop, set_parsed_ok false OpenTypeHDMX_new) /\
  head (font_with 0x04 3 true) = Some (mkHEAD 0x04) /\
  maxp (font_with 0x04 3 true) = Some (mkMAXP 3) /\
  Z.testbit 0x04 2 = true /\
  (Parse (font_with 0x04 3 true) OpenTypeHDMX_new scenario6).1 = Error /\
  Parse (font_with 0x04 3 true) OpenTypeHDMX_new scenario1 =
  (Success, mkHDMX true 0 5 0 [mkDeviceRecord x0c x0a [x09; x09; x08]]).
Proof.
  do 4 (split; [reflexivity|]). split.
  { destruct (Parse_flags_gate (font_with 0x03 3 true) (mkHEAD 0x03) (mkMAXP 3)
                OpenTypeHDMX_new scenario1 x00 x00 x00 x00 x00 x00 x00 x00 [])
      as [H _]; [reflexivity|reflexivity|].
    apply H. split; reflexivity. }
  do 3 (split; [reflexivity|]).
  destruct (Parse_flags_gate (font_with 0x04 3 true) (mkHEAD 0x04) (mkMAXP 3)
              OpenTypeHDMX_new short_header
              x00 x00 x00 x01 x00 x00 x00 x05 (bytes [12;10; 9;9]))
    as [_ H]; [reflexivity|reflexivity|].
  destruct H as [_ H6]; [left; reflexivity|].
  destruct (Parse_flags_gate (font_with 0x04 3 true) (mkHEAD 0x04) (mkMAXP 3)
              OpenTypeHDMX_new short_header
              x00 x00 x00 x01 x00 x00 x00 x05 (bytes [12;10; 9;9;8]))
    as [_ H]; [reflexivity|reflexivity|].
  destruct H as [_ H1]; [left; reflexivity|].
  split.
  - change scenario6 with (x00 :: x00 :: x00 :: x01 :: x00 :: x00 :: x00 :: x05 ::
                           bytes [12;10; 9;9]).
    rewrite H6. vm_compute. reflexivity.
  - change scenario1 with (x00 :: x00 :: x00 :: x01 :: x00 :: x00 :: x00 :: x05 ::
                           bytes [12;10; 9;9;8]).
    rewrite H1. vm_compute. reflexivity.
Defined.

(** C1 as stated fails: head.flags = 0x04 has bit 4 clear, and the table of
    scenario 1 is parsed with success, not dropped. *)
Lemma Parse_flags_gate_counterexample :
  Z.testbit 0x04 4 = false /\
  (Parse (font_with 0x04 3 true) OpenTypeHDMX_new scenario1).1 = Success.
Proof.
  split; vm_compute; reflexivity.
Qed.

(** ** What a failed Parse leaves in the table *)

Lemma Parse_widths_short (n : nat) (b : Buffer.t) (acc : list byte) :
  (length (Buffer.remaining b) < n)%nat -> Parse_widths n b acc = None.
Proof.
  intros Hlen. destruct (Parse_widths n b acc) as [[ws b']|] eqn:E; [|reflexivity].
  apply Parse_widths_Some in E as (w & _ & Hw & Hrem).
  rewrite Hrem, length_app in Hlen. lia.
Qed.

Lemma Skip_short (n : Z) (b : Buffer.t) :
  Z.of_nat (length (Buffer.remaining b)) < n -> Buffer.Skip n b = None.
Proof.
  intros Hlen. unfold Buffer.Skip.
  replace (n <=? Z.of_nat (length (Buffer.remaining b))) with false
    by (symmetry; apply Z.leb_gt; lia).
  now rewrite andb_false_r.
Qed.

Lemma Parse_widths_None (n : nat) (b : Buffer.t) (acc : list byte) :
  Parse_widths n b acc = None -> (length (Buffer.remaining b) < n)%nat.
Proof.
  intros E. destruct (le_lt_dec n (length (Buffer.remaining b))) as [Hle|Hlt];
    [|assumption].
  destruct (Parse_widths_app (take n (Buffer.remaining b)) b acc
              (drop n (Buffer.remaining b))) as (b' & E' & _).
  { now rewrite take_drop. }
  rewrite length_take, Nat.min_l in E' by assumption. congruence.
Qed.

Lemma Skip_None (n : Z) (b : Buffer.t) :
  0 <= n -> Buffer.Skip n b = None ->
  Z.of_nat (length (Buffer.remaining b)) < n.
Proof.
  intros Hn. unfold Buffer.Skip.
  replace (0 <=? n) with true by (symmetry; apply Z.leb_le; lia).
  destruct (n <=? Z.of_nat (length (Buffer.remaining b))) eqn:E; [discriminate|].
  intros _. now apply Z.leb_gt in E.
Qed.

Lemma prev_after_cons (prev : option byte)
    (rp : OpenTypeHDMXDeviceRecord * list byte)
    (rps : list (OpenTypeHDMXDeviceRecord * list byte)) :
  prev_after prev (rp :: rps) = prev_after (Some (pixel_size rp.1)) rps.
Proof.
  unfold prev_after. destruct rps as [|rp' rps]; [reflexivity|].
  rewrite last_cons_cons.
  destruct (last (rp' :: rps)) eqn:E; [reflexivity|].
  apply last_None in E. discriminate.
Qed.

Lemma prev_of_after (rps : list (OpenTypeHDMXDeviceRecord * list byte)) :
  prev_of (Z.of_nat (length rps)) (last_pixel_size_after x00 rps.*1) =
  prev_after None rps.
Proof.
  destruct rps as [|rp rps] using rev_ind; [reflexivity|].
  unfold prev_of, prev_after, last_pixel_size_after.
  rewrite last_snoc, fmap_app, foldl_app, length_app. simpl.
  now replace (Z.of_nat (length rps + 1) =? 0) with false
    by (symmetry; apply Z.eqb_neq; lia).
Qed.

(** A record loop that fails has pushed the records laid out at the cursor
    up to the one it could not take, and no more. *)
Lemma Parse_records_fail_inv (ng : Z) (todo : nat) :
  forall (i : Z) (last : byte) (table : Buffer.t) (this t : OpenTypeHDMX)
         (o : Outcome),
    0 <= i ->
    Parse_records ng todo i last table this = (o, t) ->
    o <> Success ->
    exists rps tail,
      Buffer.remaining table = records_bytes rps ++ tail /\
      records t = records this ++ rps.*1 /\
      Forall (record_fits ng (pad_len this)) rps /\
      increasing_from (prev_of i last) rps.*1 = true /\
      (length rps < todo)%nat /\
      record_fails ng (pad_len this) (prev_after (prev_of i last) rps) tail.
Proof.
  induction todo as [|todo IH]; intros i last table this t o Hi; simpl.
  - intros [= <- <-] Ho. congruence.
  - assert (Hstop : forall o',
              record_fails ng (pad_len this) (prev_of i last)
                (Buffer.remaining table) ->
              (o', set_parsed_ok false this) = (o, t) ->
              exists rps tail,
                Buffer.remaining table = records_bytes rps ++ tail /\
                records t = records this ++ rps.*1 /\
                Forall (record_fits ng (pad_len this)) rps /\
                increasing_from (prev_of i last) rps.*1 = true /\
                (length rps < S todo)%nat /\
                record_fails ng (pad_len this)
                  (prev_after (prev_of i last) rps) tail).
    { intros o' Hfail [= <- <-]. exists [], (Buffer.remaining table). simpl.
      rewrite app_nil_r. repeat split; try assumption; try lia. constructor. }
    destruct (Buffer.ReadU8 table) as [[ps table1]|] eqn:E1.
    2:{ intros H _. apply (Hstop Error); [|exact H].
        unfold Buffer.ReadU8 in E1.
        destruct (Buffer.remaining table); [exact I|discriminate]. }
    apply ReadU8_Some in E1.
    destruct (Buffer.ReadU8 table1) as [[mw table2]|] eqn:E2.
    2:{ intros H _. apply (Hstop Error); [|exact H].
        unfold Buffer.ReadU8 in E2. rewrite E1.
        destruct (Buffer.remaining table1); [exact I|discriminate]. }
    apply ReadU8_Some in E2.
    destruct (negb (i =? 0) && (u8 ps <=? u8 last)) eqn:Eord.
    { intros H _. apply (Hstop Drop); [|exact H].
      rewrite E1, E2. left. exists last.
      apply andb_true_iff in Eord as [Ei Eps]. unfold prev_of.
      destruct (i =? 0); [discriminate|]. split; [reflexivity|].
      now apply Z.leb_le. }
    destruct (Parse_widths (Z.to_nat ng) table2 []) as [[ws table3]|] eqn:E3.
    2:{ intros H _. apply (Hstop Error); [|exact H].
        rewrite E1, E2. right. apply Parse_widths_None in E3. lia. }
    apply Parse_widths_Some in E3 as (w & -> & Hw & E3). simpl in E3.
    destruct (if 0 <? pad_len this then Buffer.Skip (pad_len this) table3
              else Some table3) as [table4|] eqn:E4.
    2:{ intros H _. apply (Hstop Error); [|exact H].
        rewrite E1, E2. right.
        destruct (0 <? pad_len this) eqn:Epad; [|discriminate].
        apply Z.ltb_lt in Epad. apply Skip_None in E4; [|lia].
        rewrite E3, length_app. lia. }
    clear Hstop. intros H Ho.
    apply IH in H as (rps & tail & Hrem & Hrec & Hfit & Hinc & Hlen & Hfail);
      [|lia|assumption].
    assert (exists p, length p = Z.to_nat (pad_len this) /\
                      Buffer.remaining table3 = p ++ Buffer.remaining table4)
      as (p & Hplen & E4').
    { destruct (0 <? pad_len this) eqn:Epad.
      - now apply Skip_Some.
      - injection E4 as ->. exists []. apply Z.ltb_ge in Epad.
        split; [simpl; lia|reflexivity]. }
    assert (Hnext : prev_of (i + 1) ps = Some ps).
    { unfold prev_of. now replace (i + 1 =? 0) with false
        by (symmetry; apply Z.eqb_neq; lia). }
    rewrite Hnext in Hinc, Hfail.
    exists ((mkDeviceRecord ps mw w, p) :: rps), tail.
    rewrite prev_after_cons. simpl in *. repeat split; try assumption.
    + unfold record_bytes; simpl.
      rewrite E1, E2, E3, E4', Hrem, <- !app_assoc. reflexivity.
    + rewrite Hrec, <- app_assoc. reflexivity.
    + constructor; [|assumption]. split; assumption.
    + apply andb_true_iff. split; [|assumption].
      unfold prev_of. destruct (i =? 0); [reflexivity|].
      simpl in Eord. apply Z.leb_gt in Eord. now apply Z.ltb_lt.
    + lia.
Qed.

(** One turn of the record loop on bytes that do not start with a record
    it takes: it fails and pushes nothing. *)
Lemma Parse_records_fails_now (ng : Z) (todo : nat) (i : Z) (last : byte)
    (table : Buffer.t) (this : OpenTypeHDMX) :
  0 <= pad_len this ->
  record_fails ng (pad_len this) (prev_of i last) (Buffer.remaining table) ->
  exists o,
    o <> Success /\
    Parse_records ng (S todo) i last table this = (o, set_parsed_ok false this).
Proof.
  intros Hpad Hfail. simpl.
  destruct (Buffer.remaining table) as [|ps [|mw rest]] eqn:Hrem.
  - exists Error. split; [discriminate|]. unfold Buffer.ReadU8. now rewrite Hrem.
  - exists Error. split; [discriminate|].
    destruct (ReadU8_cons table ps _ Hrem) as (table1 & -> & Hrem1).
    unfold Buffer.ReadU8. now rewrite Hrem1.
  - destruct (ReadU8_cons table ps _ Hrem) as (table1 & -> & Hrem1).
    destruct (ReadU8_cons table1 mw _ Hrem1) as (table2 & -> & Hrem2).
    destruct (negb (i =? 0) && (u8 ps <=? u8 last)) eqn:Eord.
    { exists Drop. split; [discriminate|reflexivity]. }
    exists Error. split; [discriminate|].
    simpl in Hfail. destruct Hfail as [(q & Hq & Hle)|Hshort].
    { exfalso. unfold prev_of in Hq. destruct (i =? 0); [discriminate|].
      injection Hq as <-. simpl in Eord. apply Z.leb_gt in Eord. lia. }
    destruct (le_lt_dec (Z.to_nat ng) (length rest)) as [Hle|Hlt].
    + destruct (Parse_widths_app (take (Z.to_nat ng) rest) table2 []
                  (drop (Z.to_nat ng) rest)) as (table3 & E3 & Hrem3).
      { now rewrite take_drop. }
      rewrite length_take, Nat.min_l in E3 by assumption. rewrite E3.
      assert (Hlen3 : (length (Buffer.remaining table3) < Z.to_nat (pad_len this))%nat).
      { rewrite Hrem3, length_drop. lia. }
      replace (0 <? pad_len this) with true by (symmetry; apply Z.ltb_lt; lia).
      rewrite Skip_short; [reflexivity|lia].
    + rewrite Parse_widths_short; [reflexivity|]. now rewrite Hrem2.
Qed.

(** Every way [Parse] can fail: before the record loop, or in the loop at
    the first record it cannot take. *)
Lemma Parse_failure_inv (font : Font) (this t : OpenTypeHDMX)
    (data : list byte) (o : Outcome) :
  Parse font this data = (o, t) ->
  o <> Success ->
  (~ reaches_records font data /\ records t = records this) \/
  (exists mx b0 b1 b2 b3 b4 b5 b6 b7 rps tail,
      reaches_records font data /\
      maxp font = Some mx /\
      data = b0 :: b1 :: b2 :: b3 :: b4 :: b5 :: b6 :: b7 ::
             records_bytes rps ++ tail /\
      records t = records this ++ rps.*1 /\
      Forall (record_fits (num_glyphs mx)
                (be_s32 b4 b5 b6 b7 - (num_glyphs mx + 2))) rps /\
      increasing_from None rps.*1 = true /\
      (length rps < Z.to_nat (be_s16 b2 b3))%nat /\
      record_fails (num_glyphs mx)
        (be_s32 b4 b5 b6 b7 - (num_glyphs mx + 2)) (prev_after None rps) tail).
Proof.
  intros H Ho.
  assert (Hearly : forall o' this',
             ~ reaches_records font data -> records this' = records this ->
             (o', set_parsed_ok false this') = (o, t) ->
             (~ reaches_records font data /\ records t = records this)).
  { intros o' this' Hn Hr [= <- <-]. simpl. auto. }
  revert H.
  destruct (head font) as [hd|] eqn:Hh.
  2:{ unfold Parse. rewrite Hh. intros H. left.
      apply (Hearly Error this); [|reflexivity|destruct (maxp font); exact H].
      intros (hd' & mx' & c0 & c1 & c2 & c3 & c4 & c5 & c6 & c7 & rest' &
              Hh' & _). congruence. }
  destruct (maxp font) as [mx|] eqn:Hm.
  2:{ unfold Parse. rewrite Hh, Hm. intros H. left.
      apply (Hearly Error this); [|reflexivity|exact H].
      intros (hd' & mx' & c0 & c1 & c2 & c3 & c4 & c5 & c6 & c7 & rest' &
              _ & Hm' & _). congruence. }
  destruct (Z.eq_dec (Z.land (flags hd) 0x14) 0) as [Hfl|Hfl].
  { unfold Parse. rewrite Hh, Hm, Hfl. simpl. intros H. left.
    apply (Hearly Drop this); [|reflexivity|exact H].
    intros (hd' & mx' & c0 & c1 & c2 & c3 & c4 & c5 & c6 & c7 & rest' &
            Hh' & _ & Hfl' & _). congruence. }
  destruct data as [|b0 [|b1 [|b2 [|b3 [|b4 [|b5 [|b6 [|b7 rest]]]]]]]].
  1-8: unfold Parse; rewrite Hh, Hm; apply Z.eqb_neq in Hfl; rewrite Hfl;
       cbn -[Z.mul Z.add be_u16 be_s16 be_s32 Z.to_nat Z.leb Z.ltb Z.eqb];
       intros H; left;
       eapply (Hearly Error); [| |exact H]; [|reflexivity];
       intros (hd' & mx' & c0 & c1 & c2 & c3 & c4 & c5 & c6 & c7 & rest' &
               _ & _ & _ & Hd' & _); discriminate.
  destruct (Parse_header font hd mx this b0 b1 b2 b3 b4 b5 b6 b7 rest Hh Hm Hfl)
    as (table & Hrem & ->).
  cbv zeta.
  assert (Hnot : be_u16 b0 b1 <> 0 \/ be_s16 b2 b3 <= 0 \/
                 ~ 0 <= be_s32 b4 b5 b6 b7 - (num_glyphs mx + 2) <= 3 ->
                 ~ reaches_records font
                     (b0 :: b1 :: b2 :: b3 :: b4 :: b5 :: b6 :: b7 :: rest)).
  { intros Hbad (hd' & mx' & c0 & c1 & c2 & c3 & c4 & c5 & c6 & c7 & rest' &
                 _ & Hm' & _ & Hd' & Hv' & Hn' & Hp').
    injection Hd' as -> -> -> -> -> -> -> -> _.
    assert (mx' = mx) as -> by congruence. lia. }
  destruct (be_u16 b0 b1 =? 0) eqn:Ev; simpl negb; cbv iota.
  2:{ intros H. left. apply Z.eqb_neq in Ev.
      eapply (Hearly Drop); [| |exact H]; [|reflexivity]. apply Hnot. now left. }
  destruct (be_s16 b2 b3 <=? 0) eqn:En.
  { intros H. left. apply Z.leb_le in En.
    eapply (Hearly Drop); [| |exact H]; [|reflexivity]. apply Hnot. right. now left. }
  destruct (be_s32 b4 b5 b6 b7 <? num_glyphs mx + 2) eqn:Es.
  { intros H. left. apply Z.ltb_lt in Es.
    eapply (Hearly Drop); [| |exact H]; [|reflexivity]. apply Hnot. right. right. lia. }
  destruct (3 <? be_s32 b4 b5 b6 b7 - (num_glyphs mx + 2)) eqn:Ep.
  { intros H. left. apply Z.ltb_lt in Ep.
    eapply (Hearly Error); [| |exact H]; [|reflexivity]. apply Hnot. right. right. lia. }
  intros H. right.
  apply Z.eqb_eq in Ev. apply Z.leb_gt in En. apply Z.ltb_ge in Es, Ep.
  apply Parse_records_fail_inv in H
    as (rps & tail & Hrps & Hrec & Hfit & Hinc & Hlen & Hfail); [|lia|assumption].
  simpl in Hrec, Hfit, Hfail.
  exists mx, b0, b1, b2, b3, b4, b5, b6, b7, rps, tail.
  rewrite Hrem in Hrps. rewrite Hrps.
  split; [|repeat split; assumption].
  exists hd, mx, b0, b1, b2, b3, b4, b5, b6, b7, (records_bytes rps ++ tail).
  repeat split; try assumption; lia.
Qed.

(** C2, as the code has it: a failed Parse (Drop or Error) of a table
    constructed empty does not clear [records]; it leaves there exactly the
    records decoded completely before the failing step.  A Parse that fails
    before the record loop (missing prerequisite, flags gate, short header,
    bad version, record count, record size or padding) leaves [records]
    empty.  A Parse that fails in the loop leaves the records laid out
    behind the header up to the first one the loop cannot take (cut short,
    or not above its predecessor): none if that is the first record,
    otherwise a non-empty proper prefix, in input order, of the [num_recs]
    records.  Conversely, on every input with a valid header, complete
    records in order, fewer than the header counts, and then bytes the loop
    cannot take as a record, Parse fails and leaves exactly those records.
    The failure itself is recorded in the outcome. *)
Theorem Parse_failure_keeps_decoded_records (font : Font)
    (this t : OpenTypeHDMX) (data : list byte) (o : Outcome)
    (hd : OpenTypeHEAD) (mx : OpenTypeMAXP) (b0 b1 b2 b3 b4 b5 b6 b7 : byte)
    (rps : list (OpenTypeHDMXDeviceRecord * list byte)) (tail : list byte) :
  records this = [] ->
  (Parse font this data = (o, t) ->
   o <> Success ->
   parsed_ok t = false /\
   ((~ reaches_records font data /\ records t = []) \/
    (exists mx' c0 c1 c2 c3 c4 c5 c6 c7 rps' tail',
        reaches_records font data /\
        maxp font = Some mx' /\
        data = c0 :: c1 :: c2 :: c3 :: c4 :: c5 :: c6 :: c7 ::
               records_bytes rps' ++ tail' /\
        records t = rps'.*1 /\
        Forall (record_fits (num_glyphs mx')
                  (be_s32 c4 c5 c6 c7 - (num_glyphs mx' + 2))) rps' /\
        increasing_from None rps'.*1 = true /\
        (length rps' < Z.to_nat (be_s16 c2 c3))%nat /\
        record_fails (num_glyphs mx')
          (be_s32 c4 c5 c6 c7 - (num_glyphs mx' + 2))
          (prev_after None rps') tail'))) /\
  (head font = Some hd ->
   maxp font = Some mx ->
   Z.land (flags hd) 0x14 <> 0 ->
   be_u16 b0 b1 = 0 ->
   0 <= be_s32 b4 b5 b6 b7 - (num_glyphs mx + 2) <= 3 ->
   Forall (record_fits (num_glyphs mx)
             (be_s32 b4 b5 b6 b7 - (num_glyphs mx + 2))) rps ->
   increasing_from None rps.*1 = true ->
   (length rps < Z.to_nat (be_s16 b2 b3))%nat ->
   record_fails (num_glyphs mx) (be_s32 b4 b5 b6 b7 - (num_glyphs mx + 2))
     (prev_after None rps) tail ->
   (Parse font this
      (b0 :: b1 :: b2 :: b3 :: b4 :: b5 :: b6 :: b7 ::
       records_bytes rps ++ tail)).1 <> Success /\
   records (Parse font this
      (b0 :: b1 :: b2 :: b3 :: b4 :: b5 :: b6 :: b7 ::
       records_bytes rps ++ tail)).2 = rps.*1).
Proof.
  intros Hempty. split.
  - intros H Ho. split.
    + destruct (Parse_inv _ _ _ _ _ H) as [(_ & _ & Hf & _)|E]; [assumption|].
      destruct E as (hd' & mx' & c0 & c1 & c2 & c3 & c4 & c5 & c6 & c7 & rps' &
                     tail' & _ & _ & _ & _ & _ & _ & _ & _ & _ & _ & _ & _ & _ &
                     _ & _ & Hf).
      rewrite Hf. now apply bool_decide_eq_false.
    + apply Parse_failure_inv in H as [[Hn Hrec]|H]; [| |assumption].
      * left. split; [assumption|]. now rewrite Hrec.
      * right.
        destruct H as (mx' & c0 & c1 & c2 & c3 & c4 & c5 & c6 & c7 & rps' &
                       tail' & Hr & Hm & Hd & Hrec & Hfit & Hinc & Hlen & Hfail).
        rewrite Hempty in Hrec. simpl in Hrec.
        exists mx', c0, c1, c2, c3, c4, c5, c6, c7, rps', tail'.
        repeat split; assumption.
  - intros Hh Hm Hfl Hv Hpad Hfit Hinc Hlen Hfail.
    destruct (Parse_layout font hd mx this b0 b1 b2 b3 b4 b5 b6 b7 rps tail
                Hh Hm Hfl Hv Hpad Hfit Hinc
                (Z.to_nat (be_s16 b2 b3) - length rps)%nat)
      as (table' & Hrem & ->); [lia|lia|].
    destruct (Z.to_nat (be_s16 b2 b3) - length rps)%nat as [|k] eqn:Ek; [lia|].
    destruct (Parse_records_fails_now (num_glyphs mx) k
                (Z.of_nat (length rps)) (last_pixel_size_after x00 rps.*1) table'
                (records_extend rps.*1
                   (set_pad_len (be_s32 b4 b5 b6 b7 - (num_glyphs mx + 2))
                      (set_size_device_record (be_s32 b4 b5 b6 b7)
                         (set_version (be_u16 b0 b1) this)))))
      as (o' & Ho' & ->).
    + simpl. lia.
    + rewrite prev_of_after, Hrem. exact Hfail.
    + split; [assumption|]. simpl. now rewrite Hempty.
Qed.

Lemma Parse_failure_keeps_decoded_records_witness :
  records OpenTypeHDMX_new = [] /\
  head (font_with 0x14 3 true) = Some (mkHEAD 0x14) /\
  maxp (font_with 0x14 3 true) = Some (mkMAXP 3) /\
  record_fails 3 0
    (prev_after None [(mkDeviceRecord x0c x0a [x09; x09; x08], [])])
    (bytes [10;10; 9;9;8]) /\
  (Parse (font_with 0x14 3 true) OpenTypeHDMX_new scenario3).1 <> Success /\
  records (Parse (font_with 0x14 3 true) OpenTypeHDMX_new scenario3).2 =
  [mkDeviceRecord x0c x0a [x09; x09; x08]].
Proof.
  assert (Hfail : record_fails 3 0
            (prev_after None [(mkDeviceRecord x0c x0a [x09; x09; x08], [])])
            (bytes [10;10; 9;9;8])).
  { left. exists x0c. split; [reflexivity|]. vm_compute. discriminate. }
  split; [reflexivity|]. split; [reflexivity|]. split; [reflexivity|].
  split; [exact Hfail|].
  destruct (Parse_failure_keeps_decoded_records (font_with 0x14 3 true)
              OpenTypeHDMX_new OpenTypeHDMX_new scenario3 Drop
              (mkHEAD 0x14) (mkMAXP 3) x00 x00 x00 x02 x00 x00 x00 x05
              [(mkDeviceRecord x0c x0a [x09; x09; x08], [])]
              (bytes [10;10; 9;9;8]) eq_refl) as [_ H].
  apply H; try reflexivity.
  - vm_compute; discriminate.
  - vm_compute; split; discriminate.
  - repeat constructor.
  - vm_compute; lia.
  - exact Hfail.
Defined.

(** C2 as stated fails: on the two records of scenario 3, out of order,
    Parse returns Drop and leaves the first record in [records]. *)
Lemma Parse_failure_records_counterexample :
  (Parse (font_with 0x14 3 true) OpenTypeHDMX_new scenario3).1 = Drop /\
  records (Parse (font_with 0x14 3 true) OpenTypeHDMX_new scenario3).2 =
    [mkDeviceRecord (byte_of_Z 12) (byte_of_Z 10) (bytes [9; 9; 8])] /\
  records (Parse (font_with 0x14 3 true) OpenTypeHDMX_new scenario3).2 <> [].
Proof.
  split; [vm_compute; reflexivity|]. split; [vm_compute; reflexivity|].
  vm_compute. discriminate.
Qed.

(** ** Round trip *)

(** C3: a table parsed with success, serialized, and parsed again from the
    bytes written, with the same head and maxp, is parsed with success again
    and has the same records (pixel_size, max_width and widths of each).  A
    sink that takes every write makes Serialize succeed; whenever Serialize
    succeeds, the re-parse does. *)
Theorem Parse_Serialize_roundtrip (font : Font) (this this' t : OpenTypeHDMX)
    (data : list byte) (out : OTSStream.t) :
  records this = [] ->
  records this' = [] ->
  OTSStream.written out = [] ->
  Parse font this data = (Success, t) ->
  ((forall w r, OTSStream.accepts out w r = true) ->
   (Serialize t out).1 = true) /\
  (forall out',
      Serialize t out = (true, out') ->
      exists t',
        Parse font this' (OTSStream.written out') = (Success, t') /\
        records t' = records t).
Proof.
  intros Hempty Hempty' Hout H.
  apply (Parse_Success_inv _ _ _ _ Hempty) in H
    as (hd & mx & Hh & Hm & Hfl & Hv & Hs & Hp & Hpad & Hlen & Hws & Hinc & Hf).
  split.
  - intros Hacc. apply Serialize_accepted; [assumption|lia|lia].
  - intros out' Hser. apply Serialize_true in Hser as [_ Hw].
    rewrite Hw, Hout, Hv. simpl app.
    unfold bytes_s16, bytes_s32, bytes_u16, bytes_u32. simpl app.
    set (n := Z.of_nat (length (records t))) in *.
    set (s := size_device_record t) in *.
    rewrite <- (app_nil_r (records_bytes _)).
    assert (En : be_s16 (byte_of_Z (n mod 65536 / 256)) (byte_of_Z (n mod 65536)) = n)
      by (apply be_s16_bytes; lia).
    assert (Es : be_s32 (byte_of_Z (s mod 4294967296 / 16777216))
                        (byte_of_Z (s mod 4294967296 / 65536))
                        (byte_of_Z (s mod 4294967296 / 256))
                        (byte_of_Z (s mod 4294967296)) = s)
      by (apply be_s32_bytes; lia).
    edestruct (Parse_layout font hd mx this'
                 (byte_of_Z (0 / 256)) (byte_of_Z 0)
                 (byte_of_Z (n mod 65536 / 256)) (byte_of_Z (n mod 65536))
                 (byte_of_Z (s mod 4294967296 / 16777216))
                 (byte_of_Z (s mod 4294967296 / 65536))
                 (byte_of_Z (s mod 4294967296 / 256))
                 (byte_of_Z (s mod 4294967296))
                 (map (zero_padded (pad_len t)) (records t)) [])
      as (table' & _ & E); try eassumption.
    + reflexivity.
    + rewrite Es. lia.
    + rewrite Es, <- Hp. clear -Hws.
      induction Hws as [|r rs Hr _ IH]; simpl; constructor; [|assumption].
      split; [assumption|]. simpl. apply length_replicate.
    + now rewrite zero_padded_fst.
    + rewrite En, length_map. unfold n. rewrite Nat2Z.id. symmetry. apply Nat.add_0_r.
    + rewrite En. lia.
    + rewrite E. simpl. eexists. split; [reflexivity|].
      simpl. now rewrite Hempty', zero_padded_fst.
Qed.

Lemma Parse_Serialize_roundtrip_witness :
  records OpenTypeHDMX_new = [] /\
  OTSStream.written OTSStream.unbounded = [] /\
  (Parse (font_with 0x14 3 true) OpenTypeHDMX_new scenario2).1 = Success /\
  (Serialize (Parse (font_with 0x14 3 true) OpenTypeHDMX_new scenario2).2
     OTSStream.unbounded).1 = true /\
  exists t',
    Parse (font_with 0x14 3 true) OpenTypeHDMX_new
      (OTSStream.written
         (Serialize (Parse (font_with 0x14 3 true) OpenTypeHDMX_new scenario2).2
            OTSStream.unbounded).2) = (Success, t') /\
    records t' =
    records (Parse (font_with 0x14 3 true) OpenTypeHDMX_new scenario2).2.
Proof.
  split; [reflexivity|]. split; [reflexivity|]. split; [vm_compute; reflexivity|].
  destruct (Parse_Serialize_roundtrip (font_with 0x14 3 true)
              OpenTypeHDMX_new OpenTypeHDMX_new
              (Parse (font_with 0x14 3 true) OpenTypeHDMX_new scenario2).2
              scenario2 OTSStream.unbounded) as [H1 H2];
    [reflexivity|reflexivity|reflexivity|vm_compute; reflexivity|].
  split.
  - apply H1. intros w r. reflexivity.
  - apply H2. vm_compute; reflexivity.
Defined.

(** ** The records are sorted *)

(** C4: after a successful Parse the records are strictly increasing by
    pixel_size (each record but the first is above its predecessor); and an
    input with a valid header whose records, laid out complete behind it,
    have some record that is not above its predecessor makes Parse return
    Drop. *)
Theorem Parse_records_strictly_increasing (font : Font) (this t : OpenTypeHDMX)
    (data : list byte) (hd : OpenTypeHEAD) (mx : OpenTypeMAXP)
    (b0 b1 b2 b3 b4 b5 b6 b7 : byte)
    (rps : list (OpenTypeHDMXDeviceRecord * list byte)) (tail : list byte)
    (i : nat) (a b : OpenTypeHDMXDeviceRecord) :
  records this = [] ->
  (Parse font this data = (Success, t) -> strictly_increasing (records t)) /\
  (head font = Some hd ->
   maxp font = Some mx ->
   Z.land (flags hd) 0x14 <> 0 ->
   be_u16 b0 b1 = 0 ->
   (length rps <= Z.to_nat (be_s16 b2 b3))%nat ->
   0 <= be_s32 b4 b5 b6 b7 - (num_glyphs mx + 2) <= 3 ->
   Forall (record_fits (num_glyphs mx)
             (be_s32 b4 b5 b6 b7 - (num_glyphs mx + 2))) rps ->
   rps.*1 !! i = Some a ->
   rps.*1 !! S i = Some b ->
   u8 (pixel_size b) <= u8 (pixel_size a) ->
   (Parse font this
      (b0 :: b1 :: b2 :: b3 :: b4 :: b5 :: b6 :: b7 ::
       records_bytes rps ++ tail)).1 = Drop).
Proof.
  intros Hempty. split.
  - intros H.
    apply (Parse_Success_inv _ _ _ _ Hempty) in H
      as (hd' & mx' & _ & _ & _ & _ & _ & _ & _ & _ & _ & Hinc & _).
    now apply increasing_from_None.
  - intros Hh Hm Hfl Hv Hlen Hpad Hfit Ha Hb Hab.
    destruct (Parse_header font hd mx this b0 b1 b2 b3 b4 b5 b6 b7
                (records_bytes rps ++ tail) Hh Hm Hfl) as (table & Hrem & ->).
    cbv zeta. rewrite Hv. simpl negb. cbv iota.
    assert (Hlt : (S i < length rps)%nat).
    { apply lookup_lt_Some in Hb. now rewrite length_fmap in Hb. }
    replace (be_s16 b2 b3 <=? 0) with false by (symmetry; apply Z.leb_gt; lia).
    replace (be_s32 b4 b5 b6 b7 <? num_glyphs mx + 2) with false
      by (symmetry; apply Z.ltb_ge; lia).
    replace (3 <? be_s32 b4 b5 b6 b7 - (num_glyphs mx + 2)) with false
      by (symmetry; apply Z.ltb_ge; lia).
    replace (Z.to_nat (be_s16 b2 b3))
      with (length rps + (Z.to_nat (be_s16 b2 b3) - length rps))%nat by lia.
    apply (Parse_records_unsorted _ rps _ 0 x00 table _ tail);
      [lia|assumption| |assumption].
    change (prev_of 0 x00) with (@None byte).
    destruct (increasing_from None rps.*1) eqn:E; [|reflexivity].
    apply increasing_from_None in E. specialize (E i a b Ha Hb). lia.
Qed.

Lemma Parse_records_strictly_increasing_witness :
  records OpenTypeHDMX_new = [] /\
  (Parse (font_with 0x14 3 true) OpenTypeHDMX_new scenario1).1 = Success /\
  strictly_increasing
    (records (Parse (font_with 0x14 3 true) OpenTypeHDMX_new scenario1).2) /\
  (Parse (font_with 0x14 3 true) OpenTypeHDMX_new scenario3).1 = Drop.
Proof.
  split; [reflexivity|]. split; [vm_compute; reflexivity|].
  destruct (Parse_records_strictly_increasing (font_with 0x14 3 true)
              OpenTypeHDMX_new
              (Parse (font_with 0x14 3 true) OpenTypeHDMX_new scenario1).2
              scenario1 (mkHEAD 0x14) (mkMAXP 3)
              x00 x00 x00 x02 x00 x00 x00 x05
              [(mkDeviceRecord x0c x0a [x09; x09; x08], []);
               (mkDeviceRecord x0a x0a [x09; x09; x08], [])] [] 0%nat
              (mkDeviceRecord x0c x0a [x09; x09; x08])
              (mkDeviceRecord x0a x0a [x09; x09; x08]) eq_refl) as [H1 H2].
  split.
  - apply H1. vm_compute; reflexivity.
  - apply H2; try reflexivity.
    + vm_compute; discriminate.
    + vm_compute; split; discriminate.
    + repeat constructor.
    + vm_compute; discriminate.
Defined.

(** ** The padding *)

(** C5: whenever Parse does not return Error, the [pad_len] it computed,
    [size_device_record - (num_glyphs + 2)], lies in 0..3 (a Parse that
    drops the table before line 44 computes none and leaves [pad_len] as it
    was; a successful Parse always computes it); and when the header passes
    the checks before line 44 and the computed value exceeds 3, Parse
    returns Error with that value in [pad_len], not clamped, and without
    entering the record loop. *)
Theorem Parse_pad_len_range (font : Font) (this t : OpenTypeHDMX)
    (data : list byte) (o : Outcome) (hd : OpenTypeHEAD) (mx : OpenTypeMAXP)
    (b0 b1 b2 b3 b4 b5 b6 b7 : byte) (rest : list byte) :
  (Parse font this data = (o, t) ->
   o <> Error ->
   (pad_len t = pad_len this \/ pad_len_computed font t) /\
   (o = Success -> pad_len_computed font t)) /\
  (head font = Some hd ->
   maxp font = Some mx ->
   Z.land (flags hd) 0x14 <> 0 ->
   be_u16 b0 b1 = 0 ->
   0 < be_s16 b2 b3 ->
   3 < be_s32 b4 b5 b6 b7 - (num_glyphs mx + 2) ->
   Parse font this (b0 :: b1 :: b2 :: b3 :: b4 :: b5 :: b6 :: b7 :: rest) =
   (Error,
    set_parsed_ok false
      (set_pad_len (be_s32 b4 b5 b6 b7 - (num_glyphs mx + 2))
         (set_size_device_record (be_s32 b4 b5 b6 b7) (set_version 0 this))))).
Proof.
  split.
  - intros H Ho. apply Parse_inv in H as [(Hns & _ & _ & [He|Hp])|H].
    + contradiction.
    + split; [now left|]. intros ->. contradiction.
    + destruct H as (hd' & mx' & c0 & c1 & c2 & c3 & c4 & c5 & c6 & c7 & rps &
                     tail & _ & Hm & _ & _ & _ & _ & Hpad & _ & _ & _ & _ & _ & _ &
                     Hst & Hpt & _).
      assert (Hc : pad_len_computed font t).
      { exists mx'. rewrite Hpt, Hst. repeat split; try assumption; lia. }
      split; [now right|]. intros _. exact Hc.
  - intros Hh Hm Hfl Hv Hn Hp.
    destruct (Parse_header font hd mx this b0 b1 b2 b3 b4 b5 b6 b7 rest Hh Hm Hfl)
      as (table & _ & ->).
    cbv zeta. rewrite Hv. simpl negb. cbv iota.
    replace (be_s16 b2 b3 <=? 0) with false by (symmetry; apply Z.leb_gt; lia).
    replace (be_s32 b4 b5 b6 b7 <? num_glyphs mx + 2) with false
      by (symmetry; apply Z.ltb_ge; lia).
    replace (3 <? be_s32 b4 b5 b6 b7 - (num_glyphs mx + 2)) with true
      by (symmetry; apply Z.ltb_lt; lia).
    reflexivity.
Qed.

Lemma Parse_pad_len_range_witness :
  (Parse (font_with 0x14 3 true) OpenTypeHDMX_new scenario2).1 = Success /\
  Success <> Error /\
  pad_len_computed (font_with 0x14 3 true)
    (Parse (font_with 0x14 3 true) OpenTypeHDMX_new scenario2).2 /\
  3 < be_s32 x00 x00 x00 x09 - (3 + 2) /\
  (Parse (font_with 0x14 3 true) OpenTypeHDMX_new pad_four).1 = Error.
Proof.
  destruct (Parse_pad_len_range (font_with 0x14 3 true) OpenTypeHDMX_new
              (Parse (font_with 0x14 3 true) OpenTypeHDMX_new scenario2).2
              scenario2 Success (mkHEAD 0x14) (mkMAXP 3)
              x00 x00 x00 x01 x00 x00 x00 x09
              (bytes [12;10; 9;9;8; 0;0;0;0])) as [H1 H2].
  split; [vm_compute; reflexivity|]. split; [discriminate|]. split; [|split].
  - apply H1; [vm_compute; reflexivity|discriminate|reflexivity].
  - vm_compute; reflexivity.
  - change pad_four with (x00 :: x00 :: x00 :: x01 :: x00 :: x00 :: x00 :: x09 ::
                          bytes [12;10; 9;9;8; 0;0;0;0]).
    rewrite H2;
      first [reflexivity | vm_compute; discriminate | vm_compute; reflexivity].
Defined.

(** ** Undersized records *)

Lemma Parse_undersized (f : Font) (hd : OpenTypeHEAD) (mx : OpenTypeMAXP)
    (this : OpenTypeHDMX) (b0 b1 b2 b3 b4 b5 b6 b7 : byte) (rest : list byte) :
  head f = Some hd ->
  maxp f = Some mx ->
  be_s32 b4 b5 b6 b7 < num_glyphs mx + 2 ->
  exists t,
    Parse f this (b0 :: b1 :: b2 :: b3 :: b4 :: b5 :: b6 :: b7 :: rest) = (Drop, t) /\
    records t = records this /\ parsed_ok t = false.
Proof.
  intros Hh Hm Hs.
  destruct (Z.eq_dec (Z.land (flags hd) 0x14) 0) as [Hfl|Hfl].
  { unfold Parse. rewrite Hh, Hm, Hfl. simpl. eexists. split; [reflexivity|].
    split; reflexivity. }
  destruct (Parse_header f hd mx this b0 b1 b2 b3 b4 b5 b6 b7 rest Hh Hm Hfl)
    as (table & _ & ->).
  cbv zeta.
  destruct (negb (be_u16 b0 b1 =? 0));
    [eexists; split; [reflexivity|split; reflexivity]|].
  destruct (be_s16 b2 b3 <=? 0);
    [eexists; split; [reflexivity|split; reflexivity]|].
  replace (be_s32 b4 b5 b6 b7 <? num_glyphs mx + 2) with true
    by (symmetry; apply Z.ltb_lt; lia).
  eexists; split; [reflexivity|split; reflexivity].
Qed.

(** C6: an input whose size_device_record field is below num_glyphs + 2 is
    dropped by Parse, with no record stored; the dropped table answers no to
    ShouldSerialize, so the driver that asks before it serializes writes
    nothing of it. *)
Theorem Parse_undersized_record_dropped (h : Heap) (font : positive) (f : Font)
    (hd : OpenTypeHEAD) (mx : OpenTypeMAXP) (this : OpenTypeHDMX)
    (b0 b1 b2 b3 b4 b5 b6 b7 : byte) (rest : list byte)
    (font' : Font) (out : OTSStream.t) :
  head f = Some hd ->
  maxp f = Some mx ->
  be_s32 b4 b5 b6 b7 < num_glyphs mx + 2 ->
  (exists t,
      Parse f this (b0 :: b1 :: b2 :: b3 :: b4 :: b5 :: b6 :: b7 :: rest)
      = (Drop, t) /\
      records t = records this /\
      ShouldSerialize font' t = false) /\
  (fonts h !! font = Some f ->
   exists h',
     ots_hdmx_parse font
       (b0 :: b1 :: b2 :: b3 :: b4 :: b5 :: b6 :: b7 :: rest) h
     = Some (Drop, h') /\
     emit_hdmx out font h' = Some (true, out)).
Proof.
  intros Hh Hm Hs. split.
  - destruct (Parse_undersized f hd mx this b0 b1 b2 b3 b4 b5 b6 b7 rest Hh Hm Hs)
      as (t & E & Hrec & Hf).
    exists t. split; [assumption|]. split; [assumption|].
    unfold ShouldSerialize, Table_ShouldSerialize. now rewrite Hf.
  - intros Hfont. unfold ots_hdmx_parse. rewrite Hfont.
    set (p := fresh (dom (tables h))).
    destruct (Parse_undersized (set_hdmx (Some p) f) hd mx OpenTypeHDMX_new
                b0 b1 b2 b3 b4 b5 b6 b7 rest Hh Hm Hs) as (t & E & Hrec & Hf).
    cbv zeta. rewrite E. eexists. split; [reflexivity|].
    unfold emit_hdmx, ots_hdmx_should_serialise. simpl.
    rewrite !lookup_insert_eq. simpl. rewrite lookup_insert_eq.
    unfold ShouldSerialize, Table_ShouldSerialize. rewrite Hf.
    rewrite lookup_insert_eq. reflexivity.
Qed.

Lemma Parse_undersized_record_dropped_witness :
  head (font_with 0x14 3 true) = Some (mkHEAD 0x14) /\
  maxp (font_with 0x14 3 true) = Some (mkMAXP 3) /\
  be_s32 x00 x00 x00 x04 < num_glyphs (mkMAXP 3) + 2 /\
  exists t,
    Parse (font_with 0x14 3 true) OpenTypeHDMX_new undersized = (Drop, t) /\
    records t = records OpenTypeHDMX_new /\
    ShouldSerialize (font_with 0x14 3 true) t = false.
Proof.
  split; [reflexivity|]. split; [reflexivity|]. split; [vm_compute; reflexivity|].
  apply (Parse_undersized_record_dropped two_fonts 1%positive
           (font_with 0x14 3 true) (mkHEAD 0x14) (mkMAXP 3) OpenTypeHDMX_new
           x00 x00 x00 x01 x00 x00 x00 x04 (bytes [12;10; 9;9])
           (font_with 0x14 3 true) OTSStream.unbounded);
    [reflexivity|reflexivity|vm_compute; reflexivity].
Defined.

(** ** ShouldSerialize *)

Lemma Parse_parsed_ok (font : Font) (this : OpenTypeHDMX) (data : list byte) :
  parsed_ok (Parse font this data).2 =
  bool_decide ((Parse font this data).1 = Success).
Proof.
  destruct (Parse font this data) as [o t] eqn:E. simpl.
  apply Parse_inv in E as [(Ho & _ & -> & _)|E].
  - symmetry. now apply bool_decide_eq_false.
  - destruct E as (? & ? & ? & ? & ? & ? & ? & ? & ? & ? & ? & ? & E).
    apply E.
Qed.

(** C8: after Parse, ShouldSerialize returns true if and only if that Parse
    succeeded and the font has a glyf table; for a font without glyf (CFF
    outlines) it returns false even when Parse succeeded. *)
Theorem ShouldSerialize_iff (font font' : Font) (this : OpenTypeHDMX)
    (data : list byte) :
  (ShouldSerialize font' (Parse font this data).2 = true <->
   (Parse font this data).1 = Success /\ glyf font' <> None) /\
  (glyf font' = None ->
   ShouldSerialize font' (Parse font this data).2 = false).
Proof.
  unfold ShouldSerialize, Table_ShouldSerialize. rewrite Parse_parsed_ok. split.
  - rewrite andb_true_iff, !bool_decide_eq_true. reflexivity.
  - intros ->. apply andb_false_iff. right. now apply bool_decide_eq_false.
Qed.

Lemma ShouldSerialize_iff_witness :
  (Parse (font_with 0x14 3 true) OpenTypeHDMX_new scenario1).1 = Success /\
  ShouldSerialize (font_with 0x14 3 true)
    (Parse (font_with 0x14 3 true) OpenTypeHDMX_new scenario1).2 = true /\
  ShouldSerialize (font_with 0x14 3 false)
    (Parse (font_with 0x14 3 false) OpenTypeHDMX_new scenario1).2 = false.
Proof.
  split; [vm_compute; reflexivity|]. split.
  - apply (ShouldSerialize_iff (font_with 0x14 3 true) (font_with 0x14 3 true)
             OpenTypeHDMX_new scenario1).
    split; [vm_compute; reflexivity|discriminate].
  - apply (ShouldSerialize_iff (font_with 0x14 3 false) (font_with 0x14 3 false)
             OpenTypeHDMX_new scenario1).
    reflexivity.
Defined.

(** ** The record count at Serialize *)

(** C10: a table populated by a successful Parse has between 1 and 32767
    records, so the guard of Serialize on a record count above the maximum
    of int16_t does not fire, and on a sink that takes every write Serialize
    succeeds. *)
Theorem Serialize_count_guard_unreachable (font : Font) (this t : OpenTypeHDMX)
    (data : list byte) (out : OTSStream.t) :
  records this = [] ->
  Parse font this data = (Success, t) ->
  1 <= Z.of_nat (length (records t)) <= 32767 /\
  (32767 <? Z.of_nat (length (records t))) = false /\
  ((forall w r, OTSStream.accepts out w r = true) ->
   (Serialize t out).1 = true).
Proof.
  intros Hempty H.
  apply (Parse_Success_inv _ _ _ _ Hempty) in H
    as (hd & mx & _ & _ & _ & _ & _ & _ & Hpad & Hlen & _).
  split; [assumption|]. split; [apply Z.ltb_ge; lia|].
  intros Hacc. apply Serialize_accepted; [assumption|lia|lia].
Qed.

Lemma Serialize_count_guard_unreachable_witness :
  records OpenTypeHDMX_new = [] /\
  Parse (font_with 0x14 3 true) OpenTypeHDMX_new scenario1 =
    (Success, (Parse (font_with 0x14 3 true) OpenTypeHDMX_new scenario1).2) /\
  1 <= Z.of_nat (length (records
         (Parse (font_with 0x14 3 true) OpenTypeHDMX_new scenario1).2)) <= 32767.
Proof.
  split; [reflexivity|]. split; [vm_compute; reflexivity|].
  apply (Serialize_count_guard_unreachable (font_with 0x14 3 true)
           OpenTypeHDMX_new
           (Parse (font_with 0x14 3 true) OpenTypeHDMX_new scenario1).2
           scenario1 OTSStream.unbounded);
    [reflexivity|vm_compute; reflexivity].
Defined.

(** ** Sharing and release *)

(** C9 as stated fails: font 1 parses its table, font 2 adopts it through
    ots_hdmx_reuse, and ots_hdmx_free on font 2 releases the shared
    instance: font 1 still points at it and it is gone from the store. *)
Lemma ots_hdmx_free_counterexample :
  ots_hdmx_parse 1 scenario1 two_fonts = Some (Success, after_parse) /\
  ots_hdmx_reuse 2 1 after_parse = Some after_reuse /\
  (hdmx_reused <$> fonts after_reuse !! 2%positive) = Some true /\
  (hdmx <$> fonts after_reuse !! 2%positive) = Some (Some 1%positive) /\
  is_Some (tables after_reuse !! 1%positive) /\
  ots_hdmx_free 2 after_reuse = Some after_free /\
  (hdmx <$> fonts after_free !! 1%positive) = Some (Some 1%positive) /\
  tables after_free !! 1%positive = None.
Proof.
  repeat split; try (vm_compute; reflexivity).
  vm_compute. eexists; reflexivity.
Qed.

(** C9, as the code has it: ots_hdmx_reuse makes the adopting font point at
    the other font's instance and sets hdmx_reused, leaving the instances and
    the other font as they are; ots_hdmx_free on the adopting font deletes
    the instance its pointer names whatever hdmx_reused says, so the shared
    instance is released while the other font still points at it.  The
    instance outlives the adopting font only if Free is not invoked on it;
    every other instance is left alone. *)
Theorem ots_hdmx_free_releases_shared (h : Heap) (font other : positive)
    (f o : Font) (p : positive) :
  font <> other ->
  fonts h !! font = Some f ->
  fonts h !! other = Some o ->
  hdmx o = Some p ->
  exists h1 h2 f1,
    ots_hdmx_reuse font other h = Some h1 /\
    fonts h1 !! font = Some f1 /\
    hdmx f1 = Some p /\ hdmx_reused f1 = true /\
    fonts h1 !! other = Some o /\
    tables h1 = tables h /\
    ots_hdmx_free font h1 = Some h2 /\
    fonts h2 !! other = Some o /\
    tables h2 !! p = None /\
    (forall q, q <> p -> tables h2 !! q = tables h !! q).
Proof.
  intros Hne Hf Ho Hp.
  exists (mkHeap (<[font := set_hdmx_reused true (set_hdmx (hdmx o) f)]> (fonts h))
                 (tables h)).
  exists (mkHeap (<[font := set_hdmx_reused true (set_hdmx (hdmx o) f)]> (fonts h))
                 (delete p (tables h))).
  exists (set_hdmx_reused true (set_hdmx (hdmx o) f)).
  unfold ots_hdmx_reuse, ots_hdmx_free. rewrite Hf, Ho. simpl.
  rewrite lookup_insert_eq. simpl. rewrite Hp.
  rewrite lookup_insert_ne by assumption.
  repeat split; try assumption.
  - apply lookup_delete_eq.
  - intros q Hq. now apply lookup_delete_ne.
Qed.

Lemma ots_hdmx_free_releases_shared_witness :
  (2 <> 1)%positive /\
  is_Some (fonts after_parse !! 2%positive) /\
  (hdmx <$> fonts after_parse !! 1%positive) = Some (Some 1%positive) /\
  exists h1 h2,
    ots_hdmx_reuse 2 1 after_parse = Some h1 /\
    ots_hdmx_free 2 h1 = Some h2 /\
    tables h2 !! 1%positive = None.
Proof.
  split; [discriminate|]. split; [vm_compute; eexists; reflexivity|].
  split; [vm_compute; reflexivity|].
  destruct (ots_hdmx_free_releases_shared after_parse 2 1
              (font_with 0x14 3 true)
              (set_hdmx (Some 1%positive) (font_with 0x14 3 true)) 1)
    as (h1 & h2 & f1 & E1 & _ & _ & _ & _ & _ & E2 & _ & E3 & _);
    [discriminate|vm_compute; reflexivity|vm_compute; reflexivity|reflexivity|].
  exists h1, h2. repeat split; assumption.
Defined.

(** * Further properties of hdmx.cc *)

(** ** What Parse accepts *)

Lemma Parse_layout_Success (font : Font) (mx : OpenTypeMAXP) (s : Z)
    (rps : list (OpenTypeHDMXDeviceRecord * list byte)) (tail data : list byte)
    (this : OpenTypeHDMX) :
  table_layout font mx s rps tail data ->
  Parse font this data = (Success, parsed_table mx s (records this ++ rps.*1)).
Proof.
  intros (hd & b0 & b1 & b2 & b3 & b4 & b5 & b6 & b7 & Hh & Hm & Hfl & -> & Hv &
          Hn & Hlen & Hs & Hpad & Hfit & Hinc).
  subst s.
  destruct (Parse_layout font hd mx this b0 b1 b2 b3 b4 b5 b6 b7 rps tail
              Hh Hm Hfl Hv Hpad Hfit Hinc 0%nat) as (table' & _ & ->);
    [rewrite Hlen; lia|assumption|].
  rewrite Hv. reflexivity.
Qed.

Lemma Parse_Success_layout (font : Font) (this t : OpenTypeHDMX)
    (data : list byte) :
  Parse font this data = (Success, t) ->
  exists mx s rps tail,
    table_layout font mx s rps tail data /\
    t = parsed_table mx s (records this ++ rps.*1).
Proof.
  intros H. apply Parse_inv in H as [[Ho _]|H]; [congruence|].
  destruct H as (hd & mx & b0 & b1 & b2 & b3 & b4 & b5 & b6 & b7 & rps & tail &
                 Hh & Hm & Hfl & Hdata & Hv & Hn & Hpad & Hrec & Hfit & Hinc & Hok &
                 _ & Hvt & Hst & Hpt & Hf).
  exists mx, (be_s32 b4 b5 b6 b7), rps, tail. split.
  - exists hd, b0, b1, b2, b3, b4, b5, b6, b7.
    rewrite Hpt in Hfit. specialize (Hok eq_refl).
    repeat split; try assumption; try lia.
  - destruct t as [f v s p r]. simpl in *. subst. reflexivity.
Qed.

(** X1: Parse succeeds exactly on the inputs that are a table for the font
    ([table_layout]), and then leaves version 0, the record size read, the
    padding computed from it and the records of the input appended to the
    ones the object held. *)
Theorem Parse_Success_iff (font : Font) (this t : OpenTypeHDMX)
    (data : list byte) :
  Parse font this data = (Success, t) <->
  exists mx s rps tail,
    table_layout font mx s rps tail data /\
    t = parsed_table mx s (records this ++ rps.*1).
Proof.
  split.
  - apply Parse_Success_layout.
  - intros (mx & s & rps & tail & Hl & ->).
    eapply Parse_layout_Success; exact Hl.
Qed.

(** X2: Parse looks neither at the values of the padding bytes nor at the
    bytes behind the last record: two tables for the same font with the same
    record size and the same records, whatever their padding bytes and
    whatever follows them, are parsed to the same result. *)
Theorem Parse_ignores_padding_and_trailing_bytes (font : Font)
    (mx : OpenTypeMAXP) (s : Z)
    (rps rps' : list (OpenTypeHDMXDeviceRecord * list byte))
    (tail tail' data data' : list byte) (this : OpenTypeHDMX) :
  table_layout font mx s rps tail data ->
  table_layout font mx s rps' tail' data' ->
  rps.*1 = rps'.*1 ->
  Parse font this data = Parse font this data'.
Proof.
  intros Hl Hl' E.
  rewrite (Parse_layout_Success _ _ _ _ _ _ this Hl).
  rewrite (Parse_layout_Success _ _ _ _ _ _ this Hl').
  now rewrite E.
Qed.

Ltac layout_by_computation :=
  do 9 eexists;
  split; [reflexivity|]; split; [reflexivity|];
  split; [vm_compute; discriminate|]; split; [reflexivity|];
  split; [vm_compute; reflexivity|]; split; [vm_compute; reflexivity|];
  split; [vm_compute; reflexivity|]; split; [vm_compute; reflexivity|];
  split; [vm_compute; split; discriminate|];
  split; [repeat constructor|vm_compute; reflexivity].

Lemma Parse_ignores_padding_and_trailing_bytes_witness :
  table_layout (font_with 0x14 3 true) (mkMAXP 3) 8
    [(mkDeviceRecord x0c x0a [x09; x09; x08], [x07; x07; x07])] [] scenario2 /\
  table_layout (font_with 0x14 3 true) (mkMAXP 3) 8
    [(mkDeviceRecord x0c x0a [x09; x09; x08], [x00; x00; x00])] [x01; x02]
    (bytes [0;0; 0;1; 0;0;0;8; 12;10; 9;9;8; 0;0;0; 1;2]) /\
  Parse (font_with 0x14 3 true) OpenTypeHDMX_new scenario2 =
  Parse (font_with 0x14 3 true) OpenTypeHDMX_new
    (bytes [0;0; 0;1; 0;0;0;8; 12;10; 9;9;8; 0;0;0; 1;2]).
Proof.
  assert (H1 : table_layout (font_with 0x14 3 true) (mkMAXP 3) 8
                 [(mkDeviceRecord x0c x0a [x09; x09; x08], [x07; x07; x07])] []
                 scenario2) by layout_by_computation.
  assert (H2 : table_layout (font_with 0x14 3 true) (mkMAXP 3) 8
                 [(mkDeviceRecord x0c x0a [x09; x09; x08], [x00; x00; x00])]
                 [x01; x02]
                 (bytes [0;0; 0;1; 0;0;0;8; 12;10; 9;9;8; 0;0;0; 1;2]))
    by layout_by_computation.
  split; [exact H1|]. split; [exact H2|].
  exact (Parse_ignores_padding_and_trailing_bytes _ _ _ _ _ _ _ _ _
           OpenTypeHDMX_new H1 H2 eq_refl).
Defined.

(** ** How Parse fails *)

(** X3: with head and maxp present and the flags gate open, an input of
    fewer than 8 bytes makes Parse return Error; no record is stored and
    [size_device_record] and [pad_len] keep their values. *)
Theorem Parse_short_header_is_Error (font : Font) (hd : OpenTypeHEAD)
    (mx : OpenTypeMAXP) (this : OpenTypeHDMX) (data : list byte) :
  head font = Some hd ->
  maxp font = Some mx ->
  Z.land (flags hd) 0x14 <> 0 ->
  (length data < 8)%nat ->
  (Parse font this data).1 = Error /\
  records (Parse font this data).2 = records this /\
  size_device_record (Parse font this data).2 = size_device_record this /\
  pad_len (Parse font this data).2 = pad_len this.
Proof.
  intros Hh Hm Hfl Hlen. unfold Parse. rewrite Hh, Hm.
  apply Z.eqb_neq in Hfl. rewrite Hfl.
  destruct data as [|b0 [|b1 [|b2 [|b3 [|b4 [|b5 [|b6 [|b7 rest]]]]]]]];
    try (cbn -[Z.mul Z.add be_u16 be_s16 be_s32]; repeat split; reflexivity).
  simpl in Hlen. lia.
Qed.

Lemma Parse_short_header_is_Error_witness :
  head (font_with 0x14 3 true) = Some (mkHEAD 0x14) /\
  maxp (font_with 0x14 3 true) = Some (mkMAXP 3) /\
  Z.land (flags (mkHEAD 0x14)) 0x14 <> 0 /\
  (length short_header < 8)%nat /\
  (Parse (font_with 0x14 3 true) OpenTypeHDMX_new short_header).1
  = Error.
Proof.
  split; [reflexivity|]. split; [reflexivity|].
  split; [vm_compute; discriminate|]. split; [vm_compute; lia|].
  apply (Parse_short_header_is_Error (font_with 0x14 3 true) (mkHEAD 0x14)
           (mkMAXP 3) OpenTypeHDMX_new short_header);
    [reflexivity|reflexivity|vm_compute; discriminate|vm_compute; lia].
Defined.

(** X4: with head and maxp present and the flags gate open, a header whose
    version is not 0 or whose record count is not positive makes Parse
    return Drop, whatever follows the header; the version and the record
    size read stay in the object and no record is stored. *)
Theorem Parse_bad_version_or_count_is_Drop (font : Font) (hd : OpenTypeHEAD)
    (mx : OpenTypeMAXP) (this : OpenTypeHDMX)
    (b0 b1 b2 b3 b4 b5 b6 b7 : byte) (rest : list byte) :
  head font = Some hd ->
  maxp font = Some mx ->
  Z.land (flags hd) 0x14 <> 0 ->
  be_u16 b0 b1 <> 0 \/ be_s16 b2 b3 <= 0 ->
  Parse font this (b0 :: b1 :: b2 :: b3 :: b4 :: b5 :: b6 :: b7 :: rest) =
  (Drop,
   mkHDMX false (be_u16 b0 b1) (be_s32 b4 b5 b6 b7) (pad_len this)
          (records this)).
Proof.
  intros Hh Hm Hfl Hbad.
  destruct (Parse_header font hd mx this b0 b1 b2 b3 b4 b5 b6 b7 rest Hh Hm Hfl)
    as (table & _ & ->).
  cbv zeta.
  destruct (be_u16 b0 b1 =? 0) eqn:Ev; simpl negb; cbv iota; [|reflexivity].
  apply Z.eqb_eq in Ev. destruct Hbad as [Hbad|Hbad]; [contradiction|].
  replace (be_s16 b2 b3 <=? 0) with true by (symmetry; apply Z.leb_le; lia).
  reflexivity.
Qed.

Lemma Parse_bad_version_or_count_is_Drop_witness :
  head (font_with 0x14 3 true) = Some (mkHEAD 0x14) /\
  maxp (font_with 0x14 3 true) = Some (mkMAXP 3) /\
  Z.land (flags (mkHEAD 0x14)) 0x14 <> 0 /\
  (be_u16 x00 x00 <> 0 \/ be_s16 xff xff <= 0) /\
  (Parse (font_with 0x14 3 true) OpenTypeHDMX_new scenario5).1 = Drop.
Proof.
  split; [reflexivity|]. split; [reflexivity|].
  split; [vm_compute; discriminate|].
  split; [right; vm_compute; discriminate|].
  change scenario5 with (x00 :: x00 :: xff :: xff :: x00 :: x00 :: x00 :: x05 ::
                         bytes [12;10; 9;9;8]).
  rewrite (Parse_bad_version_or_count_is_Drop (font_with 0x14 3 true)
             (mkHEAD 0x14) (mkMAXP 3) OpenTypeHDMX_new
             x00 x00 xff xff x00 x00 x00 x05 (bytes [12;10; 9;9;8]));
    [reflexivity|reflexivity|reflexivity|vm_compute; discriminate|].
  right; vm_compute; discriminate.
Defined.

(** ** What Parse keeps in [records] *)

(** X5: whatever the outcome, the records a Parse leaves in a table
    constructed empty are well formed: strictly increasing by pixel size,
    each with exactly [num_glyphs] widths, and at most 32767 of them. *)
Theorem Parse_records_well_formed (font : Font) (this : OpenTypeHDMX)
    (data : list byte) (mx : OpenTypeMAXP) :
  records this = [] ->
  maxp font = Some mx ->
  strictly_increasing (records (Parse font this data).2) /\
  Forall (fun r => length (widths r) = Z.to_nat (num_glyphs mx))
         (records (Parse font this data).2) /\
  Z.of_nat (length (records (Parse font this data).2)) <= 32767.
Proof.
  intros Hempty Hmx.
  destruct (Parse font this data) as [o t] eqn:E. simpl.
  apply Parse_inv in E as [(_ & Hrec & _)|E].
  - rewrite Hrec, Hempty. split; [|split].
    + intros i a b Ha. now rewrite lookup_nil in Ha.
    + constructor.
    + simpl. lia.
  - destruct E as (hd & mx' & b0 & b1 & b2 & b3 & b4 & b5 & b6 & b7 & rps & tail &
                   _ & Hm & _ & _ & _ & Hn & _ & Hrec & Hfit & Hinc & Hok & Hko & _).
    rewrite Hmx in Hm. injection Hm as <-.
    rewrite Hempty in Hrec; simpl in Hrec. rewrite Hrec. split; [|split].
    + now apply increasing_from_None.
    + clear -Hfit. induction Hfit as [|rp rps [Hw _] _ IH]; simpl; constructor;
        assumption.
    + rewrite length_fmap. pose proof (be_s16_range b2 b3).
      destruct (decide (o = Success)) as [Ho|Ho].
      * rewrite (Hok Ho). lia.
      * specialize (Hko Ho). lia.
Qed.

Lemma Parse_records_well_formed_witness :
  records OpenTypeHDMX_new = [] /\
  maxp (font_with 0x14 3 true) = Some (mkMAXP 3) /\
  (Parse (font_with 0x14 3 true) OpenTypeHDMX_new scenario3).1 = Drop /\
  strictly_increasing
    (records (Parse (font_with 0x14 3 true) OpenTypeHDMX_new scenario3).2).
Proof.
  split; [reflexivity|]. split; [reflexivity|]. split; [vm_compute; reflexivity|].
  apply (Parse_records_well_formed (font_with 0x14 3 true) OpenTypeHDMX_new
           scenario3 (mkMAXP 3)); reflexivity.
Defined.

(** X6: Parse never clears [records]: called on an object that already holds
    records, it keeps them as a prefix and appends what it decodes (on
    success, as many records as the header counts, at least one). *)
Theorem Parse_appends_to_records (font : Font) (this : OpenTypeHDMX)
    (data : list byte) :
  exists new : list OpenTypeHDMXDeviceRecord,
    records (Parse font this data).2 = records this ++ new /\
    ((Parse font this data).1 = Success ->
     (length (records this) < length (records (Parse font this data).2))%nat).
Proof.
  destruct (Parse font this data) as [o t] eqn:E. simpl.
  apply Parse_inv in E as [(Ho & Hrec & _)|E].
  - exists []. rewrite app_nil_r. split; [assumption|]. intros; contradiction.
  - destruct E as (hd & mx' & b0 & b1 & b2 & b3 & b4 & b5 & b6 & b7 & rps & tail &
                   _ & _ & _ & _ & _ & Hn & _ & Hrec & _ & _ & Hok & _).
    exists rps.*1. split; [assumption|].
    intros Ho. rewrite Hrec, length_app, length_fmap, (Hok Ho). lia.
Qed.

Lemma records_bytes_length (ng pad : Z)
    (rps : list (OpenTypeHDMXDeviceRecord * list byte)) :
  0 <= ng -> 0 <= pad ->
  Forall (record_fits ng pad) rps ->
  Z.of_nat (length (records_bytes rps)) = Z.of_nat (length rps) * (ng + 2 + pad).
Proof.
  intros Hng Hpad Hfit. induction Hfit as [|rp rps [Hw Hp] _ IH].
  - reflexivity.
  - cbn [records_bytes]. rewrite length_app, Nat2Z.inj_add, IH.
    unfold record_bytes. cbn [length]. rewrite length_app, Hw, Hp. lia.
Qed.

(** X7: Parse never succeeds on less data than the header announces: after
    a successful Parse of a table constructed empty, for a font with
    [num_glyphs >= 0], the input holds at least the 8 header bytes and
    [size_device_record] bytes for each record. *)
Theorem Parse_Success_needs_all_records (font : Font) (mx : OpenTypeMAXP)
    (this t : OpenTypeHDMX) (data : list byte) :
  records this = [] ->
  maxp font = Some mx ->
  0 <= num_glyphs mx ->
  Parse font this data = (Success, t) ->
  8 + Z.of_nat (length (records t)) * size_device_record t
  <= Z.of_nat (length data).
Proof.
  intros Hempty Hmx Hng H.
  apply Parse_Success_layout in H as (mx' & s & rps & tail & Hl & ->).
  destruct Hl as (hd & b0 & b1 & b2 & b3 & b4 & b5 & b6 & b7 & _ & Hm & _ & -> &
                  _ & _ & _ & _ & Hpad & Hfit & _).
  rewrite Hmx in Hm. injection Hm as <-.
  rewrite Hempty. simpl. rewrite length_fmap, length_app.
  pose proof (records_bytes_length _ _ rps Hng (proj1 Hpad) Hfit) as Hb.
  rewrite !Nat2Z.inj_succ, Nat2Z.inj_add, Hb.
  replace (num_glyphs mx + 2 + (s - (num_glyphs mx + 2))) with s by lia.
  lia.
Qed.

Lemma Parse_Success_needs_all_records_witness :
  records OpenTypeHDMX_new = [] /\
  maxp (font_with 0x14 3 true) = Some (mkMAXP 3) /\
  0 <= num_glyphs (mkMAXP 3) /\
  (Parse (font_with 0x14 3 true) OpenTypeHDMX_new scenario2).1 = Success /\
  8 + Z.of_nat (length (records
        (Parse (font_with 0x14 3 true) OpenTypeHDMX_new scenario2).2)) *
      size_device_record
        (Parse (font_with 0x14 3 true) OpenTypeHDMX_new scenario2).2
  <= Z.of_nat (length scenario2).
Proof.
  split; [reflexivity|]. split; [reflexivity|]. split; [vm_compute; discriminate|].
  split; [vm_compute; reflexivity|].
  apply (Parse_Success_needs_all_records (font_with 0x14 3 true) (mkMAXP 3)
           OpenTypeHDMX_new
           (Parse (font_with 0x14 3 true) OpenTypeHDMX_new scenario2).2 scenario2);
    [reflexivity|reflexivity|vm_compute; discriminate|vm_compute; reflexivity].
Defined.

(** ** Truncated tables *)

(** One turn of the record loop on a record cut short, its pixel size (if it
    is there) in order: a short read. *)
Lemma Parse_records_cut_record (ng : Z) (todo : nat) (i : Z) (last : byte)
    (table : Buffer.t) (this : OpenTypeHDMX)
    (rp : OpenTypeHDMXDeviceRecord * list byte) (m : nat) :
  record_fits ng (pad_len this) rp ->
  (negb (i =? 0) && (u8 (pixel_size rp.1) <=? u8 last)) = false ->
  (m < length (record_bytes rp))%nat ->
  Buffer.remaining table = take m (record_bytes rp) ->
  Parse_records ng (S todo) i last table this = Table_Error this.
Proof.
  destruct rp as [[ps mw ws] p]. intros [Hws Hp] Hord Hm Hrem.
  simpl in Hws, Hp, Hord. unfold record_bytes in Hm, Hrem; simpl in Hm, Hrem.
  simpl. destruct m as [|[|m]]; simpl in Hrem.
  - unfold Buffer.ReadU8. now rewrite Hrem.
  - destruct (ReadU8_cons table ps _ Hrem) as (table1 & -> & Hrem1).
    unfold Buffer.ReadU8. now rewrite Hrem1.
  - destruct (ReadU8_cons table ps _ Hrem) as (table1 & -> & Hrem1).
    destruct (ReadU8_cons table1 mw _ Hrem1) as (table2 & -> & Hrem2).
    rewrite Hord. rewrite length_app in Hm.
    destruct (le_lt_dec (length ws) m) as [Hle|Hlt].
    + rewrite take_app_ge in Hrem2 by assumption.
      destruct (Parse_widths_app ws table2 [] _ Hrem2) as (table3 & E3 & Hrem3).
      rewrite Hws in E3. rewrite E3.
      assert (Hpad : 0 < pad_len this) by lia.
      replace (0 <? pad_len this) with true by (symmetry; apply Z.ltb_lt; lia).
      rewrite Skip_short; [reflexivity|].
      rewrite Hrem3, length_take. lia.
    + rewrite Parse_widths_short; [reflexivity|].
      rewrite Hrem2, length_take, length_app. lia.
Qed.

(** The record loop on records laid out in order and cut anywhere before
    their end. *)
Lemma Parse_records_truncated (ng : Z)
    (rps : list (OpenTypeHDMXDeviceRecord * list byte)) :
  forall (k : nat) (i : Z) (last : byte) (table : Buffer.t)
         (this : OpenTypeHDMX) (m : nat),
    0 <= i ->
    Forall (record_fits ng (pad_len this)) rps ->
    increasing_from (prev_of i last) rps.*1 = true ->
    (m < length (records_bytes rps))%nat ->
    Buffer.remaining table = take m (records_bytes rps) ->
    (Parse_records ng (length rps + k) i last table this).1 = Error.
Proof.
  induction rps as [|rp rps IH]; intros k i last table this m Hi Hfit Hinc Hm Hrem.
  - simpl in Hm. lia.
  - inversion Hfit as [|? ? Hfit1 Hfit']; subst.
    simpl in Hinc. apply andb_true_iff in Hinc as [Hord Hinc].
    assert (Hchk : (negb (i =? 0) && (u8 (pixel_size rp.1) <=? u8 last)) = false).
    { unfold prev_of in Hord. destruct (i =? 0); [reflexivity|].
      simpl. apply Z.leb_gt. now apply Z.ltb_lt in Hord. }
    cbn [records_bytes] in Hm, Hrem. rewrite length_app in Hm.
    change (length (rp :: rps) + k)%nat with (S (length rps + k)).
    destruct (le_lt_dec (length (record_bytes rp)) m) as [Hle|Hlt].
    + rewrite take_app_ge in Hrem by assumption.
      destruct (Parse_records_step ng (length rps + k) i last table this rp _
                  Hfit1 Hrem) as (table' & Hrem' & ->).
      rewrite Hchk.
      apply (IH k (i + 1) (pixel_size rp.1) table' _
               (m - length (record_bytes rp))%nat); try assumption; [lia| |lia].
      unfold prev_of. replace (i + 1 =? 0) with false
        by (symmetry; apply Z.eqb_neq; lia). exact Hinc.
    + rewrite take_app_le in Hrem by lia.
      now rewrite (Parse_records_cut_record ng _ i last table this rp m).
Qed.

(** X8: a table cut short is an Error, never a Drop or a success: for an
    input that is a table for the font with nothing behind its last record,
    Parse returns Error on every proper prefix of it. *)
Theorem Parse_truncated_table_is_Error (font : Font) (mx : OpenTypeMAXP)
    (s : Z) (rps : list (OpenTypeHDMXDeviceRecord * list byte))
    (data : list byte) (this : OpenTypeHDMX) (m : nat) :
  table_layout font mx s rps [] data ->
  (m < length data)%nat ->
  (Parse font this (take m data)).1 = Error.
Proof.
  intros (hd & b0 & b1 & b2 & b3 & b4 & b5 & b6 & b7 & Hh & Hm & Hfl & -> & Hv &
          Hn & Hlen & Hs & Hpad & Hfit & Hinc) Hcut.
  rewrite app_nil_r in *.
  destruct (le_lt_dec 8 m) as [Hle|Hlt].
  - do 8 (destruct m as [|m]; [lia|]). cbn [take].
    destruct (Parse_header font hd mx this b0 b1 b2 b3 b4 b5 b6 b7
                (take m (records_bytes rps)) Hh Hm Hfl) as (table & Hrem & ->).
    cbv zeta. rewrite Hv. simpl negb. cbv iota.
    replace (be_s16 b2 b3 <=? 0) with false by (symmetry; apply Z.leb_gt; lia).
    rewrite Hs.
    replace (s <? num_glyphs mx + 2) with false by (symmetry; apply Z.ltb_ge; lia).
    replace (3 <? s - (num_glyphs mx + 2)) with false
      by (symmetry; apply Z.ltb_ge; lia).
    rewrite Hlen, <- (Nat.add_0_r (length rps)).
    apply (Parse_records_truncated _ rps 0%nat 0 x00 table _ m);
      try assumption; [lia|].
    simpl in Hcut. lia.
  - unfold Parse. rewrite Hh, Hm. apply Z.eqb_neq in Hfl. rewrite Hfl.
    do 8 (destruct m as [|m];
          [cbn -[Z.mul Z.add be_u16 be_s16 be_s32]; reflexivity|]).
    lia.
Qed.

Lemma Parse_truncated_table_is_Error_witness :
  table_layout (font_with 0x14 3 true) (mkMAXP 3) 5
    [(mkDeviceRecord x0c x0a [x09; x09; x08], [])] [] scenario1 /\
  (12 < length scenario1)%nat /\
  take 12 scenario1 = scenario6 /\
  (Parse (font_with 0x14 3 true) OpenTypeHDMX_new (take 12 scenario1)).1 = Error.
Proof.
  assert (H1 : table_layout (font_with 0x14 3 true) (mkMAXP 3) 5
                 [(mkDeviceRecord x0c x0a [x09; x09; x08], [])] [] scenario1)
    by layout_by_computation.
  split; [exact H1|]. split; [vm_compute; lia|]. split; [reflexivity|].
  apply (Parse_truncated_table_is_Error _ _ _ _ _ OpenTypeHDMX_new 12 H1).
  vm_compute; lia.
Defined.

(** X9: the ordering check comes before the widths are read: behind a valid
    header and at least one complete record, a record whose pixel size is
    not above its predecessor's makes Parse return Drop as soon as its first
    two bytes are there, whatever follows them, even nothing. *)
Theorem Parse_unsorted_record_drops_before_widths (font : Font)
    (hd : OpenTypeHEAD) (mx : OpenTypeMAXP) (this : OpenTypeHDMX)
    (b0 b1 b2 b3 b4 b5 b6 b7 : byte)
    (rps : list (OpenTypeHDMXDeviceRecord * list byte))
    (r : OpenTypeHDMXDeviceRecord) (p : list byte)
    (ps mw : byte) (rest : list byte) :
  head font = Some hd ->
  maxp font = Some mx ->
  Z.land (flags hd) 0x14 <> 0 ->
  be_u16 b0 b1 = 0 ->
  0 <= be_s32 b4 b5 b6 b7 - (num_glyphs mx + 2) <= 3 ->
  Forall (record_fits (num_glyphs mx)
            (be_s32 b4 b5 b6 b7 - (num_glyphs mx + 2))) (rps ++ [(r, p)]) ->
  increasing_from None (rps ++ [(r, p)]).*1 = true ->
  (length (rps ++ [(r, p)]) < Z.to_nat (be_s16 b2 b3))%nat ->
  u8 ps <= u8 (pixel_size r) ->
  (Parse font this
     (b0 :: b1 :: b2 :: b3 :: b4 :: b5 :: b6 :: b7 ::
      records_bytes (rps ++ [(r, p)]) ++ ps :: mw :: rest)).1 = Drop.
Proof.
  intros Hh Hm Hfl Hv Hpad Hfit Hinc Hlen Hps.
  set (all := rps ++ [(r, p)]) in *.
  destruct (Parse_layout font hd mx this b0 b1 b2 b3 b4 b5 b6 b7 all
              (ps :: mw :: rest) Hh Hm Hfl Hv Hpad Hfit Hinc
              (Z.to_nat (be_s16 b2 b3) - length all)%nat)
    as (table' & Hrem & ->); [lia|lia|].
  destruct (Z.to_nat (be_s16 b2 b3) - length all)%nat as [|k] eqn:Ek; [lia|].
  destruct (ReadU8_cons table' ps _ Hrem) as (table1 & E1 & Hrem1).
  destruct (ReadU8_cons table1 mw _ Hrem1) as (table2 & E2 & _).
  simpl. rewrite E1, E2.
  assert (Hlast : last_pixel_size_after x00 all.*1 = pixel_size r).
  { unfold last_pixel_size_after, all. rewrite fmap_app, foldl_app. reflexivity. }
  rewrite Hlast.
  replace (Z.of_nat (length all) =? 0) with false.
  2:{ symmetry. apply Z.eqb_neq. unfold all. rewrite length_app. simpl. lia. }
  replace (u8 ps <=? u8 (pixel_size r)) with true
    by (symmetry; apply Z.leb_le; lia).
  reflexivity.
Qed.

Lemma Parse_unsorted_record_drops_before_widths_witness :
  u8 x0a <= u8 (pixel_size (mkDeviceRecord x0c x0a [x09; x09; x08])) /\
  (Parse (font_with 0x14 3 true) OpenTypeHDMX_new
     (bytes [0;0; 0;2; 0;0;0;5; 12;10; 9;9;8; 10;10])).1 = Drop.
Proof.
  split; [vm_compute; discriminate|].
  apply (Parse_unsorted_record_drops_before_widths (font_with 0x14 3 true)
           (mkHEAD 0x14) (mkMAXP 3) OpenTypeHDMX_new
           x00 x00 x00 x02 x00 x00 x00 x05 []
           (mkDeviceRecord x0c x0a [x09; x09; x08]) [] x0a x0a []);
    try reflexivity.
  - vm_compute; discriminate.
  - vm_compute; split; discriminate.
  - repeat constructor.
  - vm_compute; lia.
  - vm_compute; discriminate.
Defined.

(** ** What Serialize writes *)

Lemma byte_of_Z_mod (z : Z) : byte_of_Z (z mod 256) = byte_of_Z z.
Proof.
  unfold byte_of_Z. now rewrite Z.mod_mod by lia.
Qed.

Lemma byte_of_Z_low (a : Z) (b : byte) : byte_of_Z (256 * a + u8 b) = b.
Proof.
  rewrite <- byte_of_Z_mod.
  replace ((256 * a + u8 b) mod 256) with (u8 b).
  - apply byte_of_Z_u8.
  - pose proof (u8_range b). rewrite Z.add_comm, Z.mul_comm, Z.mod_add by lia.
    rewrite Z.mod_small; lia.
Qed.

Lemma bytes_u16_be (b0 b1 : byte) : bytes_u16 (be_u16 b0 b1) = [b0; b1].
Proof.
  unfold bytes_u16, be_u16. pose proof (u8_range b1).
  rewrite byte_of_Z_low. f_equal.
  replace ((256 * u8 b0 + u8 b1) / 256) with (u8 b0)
    by (apply Z.div_unique with (r := u8 b1); lia).
  apply byte_of_Z_u8.
Qed.

Lemma bytes_s16_be (b0 b1 : byte) : bytes_s16 (be_s16 b0 b1) = [b0; b1].
Proof.
  unfold bytes_s16, be_s16, wrap_s16. pose proof (be_u16_range b0 b1).
  replace (((be_u16 b0 b1 + 32768) mod 65536 - 32768) mod 65536)
    with (be_u16 b0 b1) by (Z.div_mod_to_equations; lia).
  apply bytes_u16_be.
Qed.

Lemma bytes_u32_be (b0 b1 b2 b3 : byte) :
  bytes_u32 (be_u32 b0 b1 b2 b3) = [b0; b1; b2; b3].
Proof.
  unfold bytes_u32, be_u32.
  pose proof (u8_range b0). pose proof (u8_range b1).
  pose proof (u8_range b2). pose proof (u8_range b3).
  replace (16777216 * u8 b0 + 65536 * u8 b1 + 256 * u8 b2 + u8 b3)
    with (256 * (65536 * u8 b0 + 256 * u8 b1 + u8 b2) + u8 b3) at 4 by lia.
  rewrite byte_of_Z_low.
  replace ((16777216 * u8 b0 + 65536 * u8 b1 + 256 * u8 b2 + u8 b3) / 256)
    with (256 * (256 * u8 b0 + u8 b1) + u8 b2)
    by (apply Z.div_unique with (r := u8 b3); lia).
  rewrite byte_of_Z_low.
  replace ((16777216 * u8 b0 + 65536 * u8 b1 + 256 * u8 b2 + u8 b3) / 65536)
    with (256 * u8 b0 + u8 b1)
    by (apply Z.div_unique with (r := 256 * u8 b2 + u8 b3); lia).
  rewrite byte_of_Z_low.
  replace ((16777216 * u8 b0 + 65536 * u8 b1 + 256 * u8 b2 + u8 b3) / 16777216)
    with (u8 b0)
    by (apply Z.div_unique with (r := 65536 * u8 b1 + 256 * u8 b2 + u8 b3); lia).
  now rewrite byte_of_Z_u8.
Qed.

Lemma bytes_s32_be (b0 b1 b2 b3 : byte) :
  bytes_s32 (be_s32 b0 b1 b2 b3) = [b0; b1; b2; b3].
Proof.
  unfold bytes_s32, be_s32, wrap_s32.
  assert (0 <= be_u32 b0 b1 b2 b3 <= 4294967295).
  { unfold be_u32. pose proof (u8_range b0). pose proof (u8_range b1).
    pose proof (u8_range b2). pose proof (u8_range b3). lia. }
  replace (((be_u32 b0 b1 b2 b3 + 2147483648) mod 4294967296 - 2147483648)
             mod 4294967296)
    with (be_u32 b0 b1 b2 b3) by (Z.div_mod_to_equations; lia).
  apply bytes_u32_be.
Qed.

(** X10: for a table whose [pad_len] is at most 4 (what the literal of line
    107 holds) and on a sink that takes every write, Serialize succeeds
    exactly when the table has at most 32767 records, and then it has
    appended the version, the record count and the record size, big-endian,
    and each record (pixel size, max width, widths) followed by [pad_len]
    zero bytes; with more records it fails before it writes anything. *)
Theorem Serialize_output (this : OpenTypeHDMX) (out : OTSStream.t) :
  (forall w r, OTSStream.accepts out w r = true) ->
  pad_len this <= 4 ->
  (Z.of_nat (length (records this)) <= 32767 ->
   (Serialize this out).1 = true /\
   OTSStream.written (Serialize this out).2 =
     OTSStream.written out ++
     bytes_u16 (version this) ++
     bytes_s16 (Z.of_nat (length (records this))) ++
     bytes_s32 (size_device_record this) ++
     records_bytes (map (zero_padded (pad_len this)) (records this))) /\
  (32767 < Z.of_nat (length (records this)) ->
   Serialize this out = (false, out)).
Proof.
  intros Hacc Hpad. split.
  - intros Hlen. pose proof (Serialize_accepted this out Hacc Hlen Hpad) as Hok.
    split; [assumption|].
    destruct (Serialize this out) as [ok out'] eqn:E. simpl in Hok. subst ok.
    now apply Serialize_true in E as [_ E].
  - intros Hlen. unfold Serialize.
    now replace (32767 <? Z.of_nat (length (records this))) with true
      by (symmetry; apply Z.ltb_lt; lia).
Qed.

Lemma Serialize_output_witness :
  (forall w r, OTSStream.accepts OTSStream.unbounded w r = true) /\
  pad_len (parsed_table (mkMAXP 3) 9
             [mkDeviceRecord x0c x0a [x09; x09; x08]]) <= 4 /\
  Z.of_nat (length (records (parsed_table (mkMAXP 3) 9
              [mkDeviceRecord x0c x0a [x09; x09; x08]]))) <= 32767 /\
  (Serialize (parsed_table (mkMAXP 3) 9 [mkDeviceRecord x0c x0a [x09; x09; x08]])
     OTSStream.unbounded).1 = true /\
  OTSStream.written
    (Serialize (parsed_table (mkMAXP 3) 9 [mkDeviceRecord x0c x0a [x09; x09; x08]])
       OTSStream.unbounded).2 = pad_four.
Proof.
  split; [intros w r; reflexivity|]. split; [vm_compute; discriminate|].
  split; [vm_compute; discriminate|].
  destruct (Serialize_output
              (parsed_table (mkMAXP 3) 9 [mkDeviceRecord x0c x0a [x09; x09; x08]])
              OTSStream.unbounded) as [H _];
    [intros w r; reflexivity|vm_compute; discriminate|].
  destruct H as [H1 H2]; [vm_compute; discriminate|].
  split; [exact H1|]. rewrite H2. vm_compute. reflexivity.
Defined.

Lemma zero_padded_fits (ng pad : Z)
    (rps : list (OpenTypeHDMXDeviceRecord * list byte)) :
  Forall (record_fits ng pad) rps ->
  Forall (record_fits ng pad) (map (zero_padded pad) rps.*1).
Proof.
  intros Hfit. induction Hfit as [|rp rps [Hw _] _ IH]; simpl; constructor;
    [|assumption].
  split; [assumption|]. simpl. apply length_replicate.
Qed.

Lemma zero_padded_id (ng pad : Z)
    (rps : list (OpenTypeHDMXDeviceRecord * list byte)) :
  Forall (record_fits ng pad) rps ->
  Forall (fun rp => Forall (eq x00) rp.2) rps ->
  map (zero_padded pad) rps.*1 = rps.
Proof.
  intros Hfit. induction Hfit as [|[r p] rps [_ Hp] _ IH]; intros Hz;
    [reflexivity|].
  inversion Hz as [|? ? Hz1 Hz']; subst. simpl in Hp, Hz1.
  change (zero_padded pad r :: map (zero_padded pad) rps.*1 = (r, p) :: rps).
  rewrite (IH Hz'). f_equal. unfold zero_padded. f_equal.
  rewrite <- Hp. clear -Hz1.
  induction Hz1 as [|x l <- _ IH]; simpl; [reflexivity|]. now rewrite IH.
Qed.

(** What Serialize writes for the table a successful Parse left. *)
Lemma Serialize_Parse_written (font : Font) (mx : OpenTypeMAXP) (s : Z)
    (rps : list (OpenTypeHDMXDeviceRecord * list byte))
    (tail data : list byte) (out out' : OTSStream.t) :
  table_layout font mx s rps tail data ->
  Serialize (parsed_table mx s rps.*1) out = (true, out') ->
  OTSStream.written out' =
  OTSStream.written out ++ take 8 data ++
  records_bytes (map (zero_padded (s - (num_glyphs mx + 2))) rps.*1).
Proof.
  intros (hd & b0 & b1 & b2 & b3 & b4 & b5 & b6 & b7 & Hh & Hm & Hfl & -> & Hv &
          Hn & Hlen & Hs & Hpad & Hfit & Hinc) Hser.
  apply Serialize_true in Hser as [_ ->].
  unfold parsed_table. cbn [version size_device_record pad_len records firstn].
  rewrite length_fmap, <- Hlen, Z2Nat.id by lia.
  rewrite <- Hv at 1. rewrite <- Hs at 1.
  now rewrite bytes_u16_be, bytes_s16_be, bytes_s32_be.
Qed.

(** X11: Serialize after a successful Parse writes the input back in
    canonical form: the 8 header bytes as they were, then each record
    followed by zero padding, and nothing of what followed the last record.
    An input whose padding bytes are zero and that ends with its last record
    is written back byte for byte. *)
Theorem Serialize_Parse_canonical (font : Font) (mx : OpenTypeMAXP) (s : Z)
    (rps : list (OpenTypeHDMXDeviceRecord * list byte))
    (tail data : list byte) (this : OpenTypeHDMX) (out out' : OTSStream.t) :
  table_layout font mx s rps tail data ->
  records this = [] ->
  Serialize (Parse font this data).2 out = (true, out') ->
  OTSStream.written out' =
    OTSStream.written out ++ take 8 data ++
    records_bytes (map (zero_padded (s - (num_glyphs mx + 2))) rps.*1) /\
  (tail = [] ->
   Forall (fun rp => Forall (eq x00) rp.2) rps ->
   OTSStream.written out' = OTSStream.written out ++ data).
Proof.
  intros Hl Hempty Hser.
  rewrite (Parse_layout_Success _ _ _ _ _ _ this Hl), Hempty in Hser.
  simpl in Hser.
  pose proof (Serialize_Parse_written _ _ _ _ _ _ _ _ Hl Hser) as Hw.
  split; [assumption|].
  intros -> Hz. rewrite Hw.
  destruct Hl as (hd & b0 & b1 & b2 & b3 & b4 & b5 & b6 & b7 & _ & _ & _ & -> &
                  _ & _ & _ & _ & _ & Hfit & _).
  rewrite (zero_padded_id _ _ _ Hfit Hz), app_nil_r. reflexivity.
Qed.

Lemma Serialize_Parse_canonical_witness :
  table_layout (font_with 0x14 3 true) (mkMAXP 3) 8
    [(mkDeviceRecord x0c x0a [x09; x09; x08], [x07; x07; x07])] [] scenario2 /\
  records OpenTypeHDMX_new = [] /\
  OTSStream.written
    (Serialize (Parse (font_with 0x14 3 true) OpenTypeHDMX_new scenario2).2
       OTSStream.unbounded).2 =
  [] ++ take 8 scenario2 ++
  records_bytes
    (map (zero_padded (8 - (num_glyphs (mkMAXP 3) + 2)))
       [(mkDeviceRecord x0c x0a [x09; x09; x08], [x07; x07; x07])].*1).
Proof.
  assert (H1 : table_layout (font_with 0x14 3 true) (mkMAXP 3) 8
                 [(mkDeviceRecord x0c x0a [x09; x09; x08], [x07; x07; x07])] []
                 scenario2) by layout_by_computation.
  split; [exact H1|]. split; [reflexivity|].
  apply (Serialize_Parse_canonical _ _ _ _ _ _ OpenTypeHDMX_new
           OTSStream.unbounded _ H1 eq_refl).
  vm_compute; reflexivity.
Defined.

(** X12: the size of what Serialize writes: after a successful Parse of a
    table constructed empty, for a font with [num_glyphs >= 0], a Serialize
    that succeeds has appended 8 bytes and [size_device_record] bytes for
    each record. *)
Theorem Serialize_Parse_length (font : Font) (mx : OpenTypeMAXP)
    (this t : OpenTypeHDMX) (data : list byte) (out out' : OTSStream.t) :
  records this = [] ->
  maxp font = Some mx ->
  0 <= num_glyphs mx ->
  Parse font this data = (Success, t) ->
  Serialize t out = (true, out') ->
  Z.of_nat (length (OTSStream.written out')) =
  Z.of_nat (length (OTSStream.written out)) + 8 +
  Z.of_nat (length (records t)) * size_device_record t.
Proof.
  intros Hempty Hmx Hng H Hser.
  apply Parse_Success_layout in H as (mx' & s & rps & tail & Hl & ->).
  rewrite Hempty in *. simpl in Hser |- *.
  rewrite (Serialize_Parse_written _ _ _ _ _ _ _ _ Hl Hser).
  destruct Hl as (hd & b0 & b1 & b2 & b3 & b4 & b5 & b6 & b7 & _ & Hm & _ & -> &
                  _ & _ & _ & _ & Hpad & Hfit & _).
  rewrite Hmx in Hm. injection Hm as <-.
  pose proof (records_bytes_length _ _ _ Hng (proj1 Hpad)
                (zero_padded_fits _ _ _ Hfit)) as Hb.
  rewrite !length_app, !Nat2Z.inj_add, Hb, length_map. simpl length.
  replace (num_glyphs mx + 2 + (s - (num_glyphs mx + 2))) with s by lia.
  lia.
Qed.

Lemma Serialize_Parse_length_witness :
  records OpenTypeHDMX_new = [] /\
  maxp (font_with 0x14 3 true) = Some (mkMAXP 3) /\
  0 <= num_glyphs (mkMAXP 3) /\
  (Parse (font_with 0x14 3 true) OpenTypeHDMX_new scenario2).1 = Success /\
  Z.of_nat (length (OTSStream.written
    (Serialize (Parse (font_with 0x14 3 true) OpenTypeHDMX_new scenario2).2
       OTSStream.unbounded).2)) =
  Z.of_nat (length (OTSStream.written OTSStream.unbounded)) + 8 +
  Z.of_nat (length (records
    (Parse (font_with 0x14 3 true) OpenTypeHDMX_new scenario2).2)) *
  size_device_record (Parse (font_with 0x14 3 true) OpenTypeHDMX_new scenario2).2.
Proof.
  split; [reflexivity|]. split; [reflexivity|]. split; [vm_compute; discriminate|].
  split; [vm_compute; reflexivity|].
  apply (Serialize_Parse_length (font_with 0x14 3 true) (mkMAXP 3)
           OpenTypeHDMX_new _ scenario2 OTSStream.unbounded);
    [reflexivity|reflexivity|vm_compute; discriminate|vm_compute; reflexivity|].
  vm_compute; reflexivity.
Defined.

(** What Serialize writes for a parsed table is again a table for the font,
    with the same records. *)
Lemma Serialize_written_is_table (font : Font) (mx : OpenTypeMAXP) (s : Z)
    (rps : list (OpenTypeHDMXDeviceRecord * list byte)) (tail data : list byte) :
  table_layout font mx s rps tail data ->
  table_layout font mx s
    (map (zero_padded (s - (num_glyphs mx + 2))) rps.*1) []
    (take 8 data ++
     records_bytes (map (zero_padded (s - (num_glyphs mx + 2))) rps.*1)) /\
  take 8 (take 8 data ++
          records_bytes (map (zero_padded (s - (num_glyphs mx + 2))) rps.*1))
  = take 8 data.
Proof.
  intros (hd & b0 & b1 & b2 & b3 & b4 & b5 & b6 & b7 & Hh & Hm & Hfl & -> & Hv &
          Hn & Hlen & Hs & Hpad & Hfit & Hinc).
  split; [|reflexivity].
  exists hd, b0, b1, b2, b3, b4, b5, b6, b7.
  rewrite zero_padded_fst, length_map, length_fmap, app_nil_r.
  repeat split; try assumption; try lia.
  now apply zero_padded_fits.
Qed.

(** X13: sanitising twice changes nothing more: when the bytes Serialize
    wrote for a successfully parsed table are parsed and serialized again,
    the second output equals the first, byte for byte. *)
Theorem Parse_Serialize_idempotent (font : Font) (this this' t : OpenTypeHDMX)
    (data : list byte) (out out1 out2 out2' : OTSStream.t) :
  records this = [] ->
  records this' = [] ->
  OTSStream.written out = [] ->
  OTSStream.written out2 = [] ->
  Parse font this data = (Success, t) ->
  Serialize t out = (true, out1) ->
  Serialize (Parse font this' (OTSStream.written out1)).2 out2 = (true, out2') ->
  OTSStream.written out2' = OTSStream.written out1.
Proof.
  intros Hempty Hempty' Hout Hout2 H Hser1 Hser2.
  apply Parse_Success_layout in H as (mx & s & rps & tail & Hl & ->).
  rewrite Hempty in Hser1. simpl app in Hser1.
  pose proof (Serialize_Parse_written _ _ _ _ _ _ _ _ Hl Hser1) as Hw1.
  rewrite Hout in Hw1. simpl app in Hw1.
  destruct (Serialize_written_is_table _ _ _ _ _ _ Hl) as [Hl1 Htake].
  rewrite Hw1 in Hser2 |- *.
  rewrite (Parse_layout_Success _ _ _ _ _ _ this' Hl1), Hempty' in Hser2.
  simpl app in Hser2. cbn [snd] in Hser2.
  pose proof (Serialize_Parse_written _ _ _ _ _ _ _ _ Hl1 Hser2) as Hw2.
  now rewrite Hw2, Hout2, Htake, zero_padded_fst.
Qed.

Lemma Parse_Serialize_idempotent_witness :
  records OpenTypeHDMX_new = [] /\
  OTSStream.written OTSStream.unbounded = [] /\
  (Parse (font_with 0x14 3 true) OpenTypeHDMX_new scenario2).1 = Success /\
  OTSStream.written
    (Serialize
       (Parse (font_with 0x14 3 true) OpenTypeHDMX_new
          (OTSStream.written
             (Serialize (Parse (font_with 0x14 3 true) OpenTypeHDMX_new
                           scenario2).2 OTSStream.unbounded).2)).2
       OTSStream.unbounded).2 =
  OTSStream.written
    (Serialize (Parse (font_with 0x14 3 true) OpenTypeHDMX_new scenario2).2
       OTSStream.unbounded).2.
Proof.
  split; [reflexivity|]. split; [reflexivity|]. split; [vm_compute; reflexivity|].
  apply (Parse_Serialize_idempotent (font_with 0x14 3 true)
           OpenTypeHDMX_new OpenTypeHDMX_new
           (Parse (font_with 0x14 3 true) OpenTypeHDMX_new scenario2).2
           scenario2 OTSStream.unbounded
           (Serialize (Parse (font_with 0x14 3 true) OpenTypeHDMX_new
                         scenario2).2 OTSStream.unbounded).2
           OTSStream.unbounded);
    try reflexivity; vm_compute; reflexivity.
Defined.

(** ** The font-level entry points *)

Lemma fresh_table_unused (h : Heap) : tables h !! fresh (dom (tables h)) = None.
Proof. apply not_elem_of_dom, is_fresh. Qed.

(** X14: ots_hdmx_parse gives the font a new instance whatever the outcome
    of Parse: the font's hdmx pointer is set to a location that held no
    instance, the instance there is what Parse left, and every other
    instance (a previous one of this font included) and every other font
    are untouched. *)
Theorem ots_hdmx_parse_allocates (h : Heap) (font : positive) (f : Font)
    (data : list byte) :
  fonts h !! font = Some f ->
  exists (p : positive) (h' : Heap),
    tables h !! p = None /\
    ots_hdmx_parse font data h =
      Some ((Parse (set_hdmx (Some p) f) OpenTypeHDMX_new data).1, h') /\
    fonts h' !! font = Some (set_hdmx (Some p) f) /\
    tables h' !! p =
      Some (font, (Parse (set_hdmx (Some p) f) OpenTypeHDMX_new data).2) /\
    (forall q, q <> p -> tables h' !! q = tables h !! q) /\
    (forall g, g <> font -> fonts h' !! g = fonts h !! g).
Proof.
  intros Hf. exists (fresh (dom (tables h))).
  unfold ots_hdmx_parse. rewrite Hf. cbv zeta.
  destruct (Parse (set_hdmx (Some (fresh (dom (tables h)))) f)
              OpenTypeHDMX_new data) as [o t].
  eexists. split; [apply fresh_table_unused|]. split; [reflexivity|]. simpl.
  split; [apply lookup_insert_eq|]. split; [apply lookup_insert_eq|]. split.
  - intros q Hq. now apply lookup_insert_ne.
  - intros g Hg. now apply lookup_insert_ne.
Qed.

Lemma ots_hdmx_parse_allocates_witness :
  fonts two_fonts !! 1%positive = Some (font_with 0x14 3 true) /\
  exists h', ots_hdmx_parse 1 scenario3 two_fonts = Some (Drop, h') /\
             is_Some (fonts h' !! 1%positive ≫= hdmx).
Proof.
  split; [reflexivity|].
  destruct (ots_hdmx_parse_allocates two_fonts 1 (font_with 0x14 3 true)
              scenario3 eq_refl) as (p & h' & _ & E & Hf & _).
  exists h'. split.
  - rewrite E. vm_compute. reflexivity.
  - rewrite Hf. simpl. eexists; reflexivity.
Defined.

(** X15: after ots_hdmx_parse the font has an hdmx instance whatever the
    outcome, and ots_hdmx_should_serialise answers for it: true exactly when
    the Parse succeeded and the font has a glyf table. *)
Theorem ots_hdmx_parse_then_should_serialise (h h' : Heap) (font : positive)
    (f : Font) (data : list byte) (o : Outcome) :
  fonts h !! font = Some f ->
  ots_hdmx_parse font data h = Some (o, h') ->
  ots_hdmx_should_serialise font h' =
  Some (bool_decide (o = Success) && bool_decide (glyf f <> None)).
Proof.
  intros Hf. unfold ots_hdmx_parse. rewrite Hf. cbv zeta.
  set (p := fresh (dom (tables h))).
  pose proof (Parse_parsed_ok (set_hdmx (Some p) f) OpenTypeHDMX_new data) as Hok.
  destruct (Parse (set_hdmx (Some p) f) OpenTypeHDMX_new data) as [o' t].
  simpl in Hok. intros [= -> <-].
  unfold ots_hdmx_should_serialise. simpl.
  rewrite !lookup_insert_eq. simpl. rewrite lookup_insert_eq.
  rewrite lookup_insert_eq.
  unfold ShouldSerialize, Table_ShouldSerialize. now rewrite Hok.
Qed.

Lemma ots_hdmx_parse_then_should_serialise_witness :
  fonts two_fonts !! 1%positive = Some (font_with 0x14 3 true) /\
  ots_hdmx_parse 1 scenario1 two_fonts = Some (Success, after_parse) /\
  ots_hdmx_should_serialise 1 after_parse = Some true.
Proof.
  split; [reflexivity|]. split; [vm_compute; reflexivity|].
  apply (ots_hdmx_parse_then_should_serialise two_fonts after_parse 1
           (font_with 0x14 3 true) scenario1 Success);
    [reflexivity|vm_compute; reflexivity].
Defined.

(** X16: a font that adopted another font's table through ots_hdmx_reuse
    serializes the very same bytes as the other font: ots_hdmx_serialise on
    the adopting font after the reuse is ots_hdmx_serialise on the other
    font before it; the reuse copies nothing and changes no instance. *)
Theorem ots_hdmx_reuse_shares_serialisation (h : Heap) (font other : positive)
    (f o : Font) (out : OTSStream.t) :
  fonts h !! font = Some f ->
  fonts h !! other = Some o ->
  exists h1,
    ots_hdmx_reuse font other h = Some h1 /\
    tables h1 = tables h /\
    ots_hdmx_serialise out font h1 = ots_hdmx_serialise out other h.
Proof.
  intros Hf Ho. unfold ots_hdmx_reuse. rewrite Hf, Ho.
  eexists. split; [reflexivity|]. split; [reflexivity|].
  unfold ots_hdmx_serialise. simpl. rewrite lookup_insert_eq, Ho. reflexivity.
Qed.

Lemma ots_hdmx_reuse_shares_serialisation_witness :
  is_Some (fonts after_parse !! 2%positive) /\
  is_Some (fonts after_parse !! 1%positive) /\
  ots_hdmx_serialise OTSStream.unbounded 2 after_reuse =
  ots_hdmx_serialise OTSStream.unbounded 1 after_parse.
Proof.
  split; [vm_compute; eexists; reflexivity|].
  split; [vm_compute; eexists; reflexivity|].
  destruct (ots_hdmx_reuse_shares_serialisation after_parse 2 1
              (font_with 0x14 3 true)
              (set_hdmx (Some 1%positive) (font_with 0x14 3 true))
              OTSStream.unbounded) as (h1 & E & _ & Hs);
    [vm_compute; reflexivity|vm_compute; reflexivity|].
  rewrite <- Hs. f_equal.
  assert (Some after_reuse = Some h1) as [= ->]; [|reflexivity].
  rewrite <- E. vm_compute. reflexivity.
Defined.

(** X17: for a shared table ShouldSerialize looks at the font the table was
    parsed for: after ots_hdmx_reuse, ots_hdmx_should_serialise on the
    adopting font gives what it gives on the other font, whether or not the
    adopting font itself has a glyf table. *)
Theorem ots_hdmx_reuse_shares_should_serialise (h : Heap)
    (font other : positive) (f o : Font) :
  fonts h !! font = Some f ->
  fonts h !! other = Some o ->
  exists h1,
    ots_hdmx_reuse font other h = Some h1 /\
    ots_hdmx_should_serialise font h1 = ots_hdmx_should_serialise other h.
Proof.
  intros Hf Ho. unfold ots_hdmx_reuse. rewrite Hf, Ho.
  eexists. split; [reflexivity|].
  unfold ots_hdmx_should_serialise. simpl. rewrite lookup_insert_eq, Ho. simpl.
  destruct (hdmx o) as [p|]; [|reflexivity].
  destruct (tables h !! p) as [[owner this]|]; [|reflexivity].
  destruct (decide (owner = font)) as [->|Hne].
  - rewrite lookup_insert_eq, Hf. reflexivity.
  - rewrite lookup_insert_ne by congruence. reflexivity.
Qed.

Lemma ots_hdmx_reuse_shares_should_serialise_witness :
  is_Some (fonts after_parse !! 2%positive) /\
  is_Some (fonts after_parse !! 1%positive) /\
  ots_hdmx_should_serialise 2 after_reuse =
  ots_hdmx_should_serialise 1 after_parse.
Proof.
  split; [vm_compute; eexists; reflexivity|].
  split; [vm_compute; eexists; reflexivity|].
  destruct (ots_hdmx_reuse_shares_should_serialise after_parse 2 1
              (font_with 0x14 3 true)
              (set_hdmx (Some 1%positive) (font_with 0x14 3 true)))
    as (h1 & E & Hs); [vm_compute; reflexivity|vm_compute; reflexivity|].
  rewrite <- Hs. f_equal.
  assert (Some after_reuse = Some h1) as [= ->]; [|reflexivity].
  rewrite <- E. vm_compute. reflexivity.
Defined.

(** X18: the instance ots_hdmx_parse allocates is the one ots_hdmx_free
    releases: a parse followed by a free on the same font leaves the store
    of instances as it was before the parse, while the font's pointer keeps
    naming the released instance. *)
Theorem ots_hdmx_parse_then_free (h h' : Heap) (font : positive) (f : Font)
    (data : list byte) (o : Outcome) :
  fonts h !! font = Some f ->
  ots_hdmx_parse font data h = Some (o, h') ->
  exists h'',
    ots_hdmx_free font h' = Some h'' /\
    tables h'' = tables h /\
    fonts h'' = fonts h' /\
    (fonts h'' !! font ≫= hdmx) = Some (fresh (dom (tables h))) /\
    tables h'' !! fresh (dom (tables h)) = None.
Proof.
  intros Hf. unfold ots_hdmx_parse. rewrite Hf. cbv zeta.
  destruct (Parse (set_hdmx (Some (fresh (dom (tables h)))) f)
              OpenTypeHDMX_new data) as [o' t].
  intros [= -> <-]. unfold ots_hdmx_free. simpl.
  rewrite lookup_insert_eq. simpl.
  eexists. split; [reflexivity|]. simpl.
  rewrite delete_insert_id by apply fresh_table_unused.
  rewrite lookup_insert_eq.
  repeat split; try reflexivity. apply fresh_table_unused.
Qed.

Lemma ots_hdmx_parse_then_free_witness :
  fonts two_fonts !! 1%positive = Some (font_with 0x14 3 true) /\
  ots_hdmx_parse 1 scenario1 two_fonts = Some (Success, after_parse) /\
  exists h'', ots_hdmx_free 1 after_parse = Some h'' /\
              tables h'' = tables two_fonts.
Proof.
  split; [reflexivity|]. split; [vm_compute; reflexivity|].
  destruct (ots_hdmx_parse_then_free two_fonts after_parse 1
              (font_with 0x14 3 true) scenario1 Success)
    as (h'' & E & Ht & _); [reflexivity|vm_compute; reflexivity|].
  exists h''. split; assumption.
Defined.
